(** * ChunkSmith: event-stream consumers and credential dispatcher

    A shallow embedding of the client-side stream consumers of ChunkSmith
    (the chat turn consumer of [ChatInterface.tsx], the reconnecting hooks
    [useWebSocket.ts] and [useSSE.ts], the progress reducer of
    [ProcessingPage.tsx]) together with the credential-rotation dispatcher,
    and the properties of the specification settled against them.

    Conventions of the embedding.
    - React state is a record; a [setX(prev => f prev)] updater is applied
      in program order, so a handler is a function from state to state.
    - A closure is a record of what it captured.  In particular a handler
      created inside a render sees that render's value of a state variable,
      not later ones.
    - [Date.now()] is an argument of the function that reads it.
    - JavaScript numbers carried by events (counts, steps, percentages) are
      integers of [Z]; a number is falsy exactly when it is [0].
    - A string is the sequence of the bytes of its UTF-8 encoding. *)

From Stdlib Require Import ZArith List String Bool Lia DecimalString.
From Stdlib Require DecimalPos DecimalZ.
Import ListNotations.
Open Scope string_scope.
Open Scope Z_scope.

(** ** JavaScript helpers *)

Module JS.

(** [n.toString()] for an integer. *)
Definition toString (n : Z) : string := NilZero.string_of_int (Z.to_int n).

(** Truthiness of a string: every string but the empty one. *)
Definition truthy (s : string) : bool := negb (s =? "")%string.

(** Truthiness of a number. *)
Definition truthyZ (n : Z) : bool := negb (n =? 0).

(** Truthiness of [string | null | undefined]. *)
Definition truthyOpt (o : option string) : bool :=
  match o with
  | Some s => truthy s
  | None => false
  end.

(** Truthiness of [number | undefined]. *)
Definition truthyOptZ (o : option Z) : bool :=
  match o with
  | Some n => truthyZ n
  | None => false
  end.

(** [a || b] where [a : string | undefined]. *)
Definition orElse (a : option string) (b : string) : string :=
  match a with
  | Some s => if truthy s then s else b
  | None => b
  end.

(** [a || []] where [a] is an optional array (an array is always truthy). *)
Definition orEmpty {A : Type} (a : option (list A)) : list A :=
  match a with
  | Some l => l
  | None => []
  end.

(** ASCII white space removed by [String.prototype.trim]. *)
Definition isSpace (c : Ascii.ascii) : bool :=
  let n := Ascii.nat_of_ascii c in
  ((n =? 32) || (n =? 9) || (n =? 10) || (n =? 11) || (n =? 12) || (n =? 13))%nat.

(** The white space of two bytes that [trim] removes: U+00A0 (C2 A0). *)
Definition isSpace2 (c1 c2 : Ascii.ascii) : bool :=
  ((Ascii.nat_of_ascii c1 =? 194) && (Ascii.nat_of_ascii c2 =? 160))%nat.

(** The white space of three bytes that [trim] removes: U+1680
    (E1 9A 80), U+2000 to U+200A (E2 80 80 to E2 80 8A), U+2028 and
    U+2029 (E2 80 A8, E2 80 A9), U+202F (E2 80 AF), U+205F (E2 81 9F),
    U+3000 (E3 80 80) and U+FEFF (EF BB BF). *)
Definition isSpace3 (c1 c2 c3 : Ascii.ascii) : bool :=
  let a := Ascii.nat_of_ascii c1 in
  let b := Ascii.nat_of_ascii c2 in
  let c := Ascii.nat_of_ascii c3 in
  (((a =? 225) && (b =? 154) && (c =? 128))
   || ((a =? 226) && (b =? 128)
       && (((128 <=? c) && (c <=? 138)) || (c =? 168) || (c =? 169)
           || (c =? 175)))
   || ((a =? 226) && (b =? 129) && (c =? 159))
   || ((a =? 227) && (b =? 128) && (c =? 128))
   || ((a =? 239) && (b =? 187) && (c =? 191)))%nat.

(** [!s.trim()]: the string is empty once trimmed, that is, it is made of
    white space and line terminators only. *)
Fixpoint blank (s : string) : bool :=
  match s with
  | EmptyString => true
  | String c1 r1 =>
      if isSpace c1 then blank r1
      else
        match r1 with
        | EmptyString => false
        | String c2 r2 =>
            if isSpace2 c1 c2 then blank r2
            else
              match r2 with
              | EmptyString => false
              | String c3 r3 => isSpace3 c1 c2 c3 && blank r3
              end
        end
  end.

End JS.

(** ** Progress steps of a chat turn ([StreamingSteps.tsx]) *)

Module StreamingSteps.

Inductive StepType := searching | reading | writing | images.
Inductive StepStatus := pending | active | complete.

Record StreamingStep := {
  id : string;
  type : StepType;
  label : string;
  status : StepStatus;
  details : option (list string)
}.

(** [Partial<StreamingStep>], restricted to the fields the callers set. *)
Record Updates := {
  u_status : option StepStatus;
  u_label : option string
}.

(** [{ ...step, ...updates }] *)
Definition merge (step : StreamingStep) (u : Updates) : StreamingStep :=
  {| id := id step;
     type := type step;
     label := match u_label u with Some l => l | None => label step end;
     status := match u_status u with Some s => s | None => status step end;
     details := details step |}.

End StreamingSteps.

(** ** The chat consumer ([ChatInterface.tsx]) *)

Module ChatInterface.

Import StreamingSteps.

Record ChatImage := {
  filename : string;
  data : string
}.

Inductive Role := user | assistant.

Record Message := {
  msg_id : string;
  msg_type : Role;
  content : string;
  images : option (list ChatImage)
}.

(** The parsed payload of one server-sent event, by its [type] tag.
    [other] stands for any tag the [switch] has no case for. *)
Inductive Event :=
| connected
| search_start (query : option string)
| search_complete (chunks_count : Z) (sources : option (list string))
| images_found (count : Z)
| image (img_filename img_data : string)
| response_start
| content_delta (text : string)
| complete
| end_
| other.

Inductive Toast :=
| toast_success (m : string)
| toast_error (m : string).

(** State and refs of the component.  [toasts] and [timeouts] record the
    notifications shown and the pending [setTimeout] delays. *)
Record Component := {
  sessionId : option string;
  messages : list Message;
  currentImages : list ChatImage;
  inputMessage : string;
  isStreaming : bool;
  streamingSteps : list StreamingStep;
  streamingMessageIdRef : string;
  toasts : list Toast;
  timeouts : list Z
}.

(** The [EventSource] opened by [startStreaming] together with what its
    handlers close over: the arguments and locals of that call, and the
    [currentImages] of the render whose [startStreaming] was called. *)
Record EventSource := {
  es_session : string;
  es_message : string;
  closure_currentImages : list ChatImage;
  searchStepId : string;
  readStepId : string;
  writeStepId : string;
  imagesStepId : string;
  closed : bool
}.

Definition initial : Component :=
  {| sessionId := None; messages := []; currentImages := [];
     inputMessage := ""; isStreaming := false; streamingSteps := [];
     streamingMessageIdRef := ""; toasts := []; timeouts := [] |}.

Definition setSessionId (v : option string) (c : Component) : Component :=
  {| sessionId := v; messages := messages c;
     currentImages := currentImages c; inputMessage := inputMessage c;
     isStreaming := isStreaming c; streamingSteps := streamingSteps c;
     streamingMessageIdRef := streamingMessageIdRef c;
     toasts := toasts c; timeouts := timeouts c |}.

Definition setMessages (f : list Message -> list Message) (c : Component)
  : Component :=
  {| sessionId := sessionId c; messages := f (messages c);
     currentImages := currentImages c; inputMessage := inputMessage c;
     isStreaming := isStreaming c; streamingSteps := streamingSteps c;
     streamingMessageIdRef := streamingMessageIdRef c;
     toasts := toasts c; timeouts := timeouts c |}.

Definition setCurrentImages (f : list ChatImage -> list ChatImage)
  (c : Component) : Component :=
  {| sessionId := sessionId c; messages := messages c;
     currentImages := f (currentImages c); inputMessage := inputMessage c;
     isStreaming := isStreaming c; streamingSteps := streamingSteps c;
     streamingMessageIdRef := streamingMessageIdRef c;
     toasts := toasts c; timeouts := timeouts c |}.

Definition setInputMessage (v : string) (c : Component) : Component :=
  {| sessionId := sessionId c; messages := messages c;
     currentImages := currentImages c; inputMessage := v;
     isStreaming := isStreaming c; streamingSteps := streamingSteps c;
     streamingMessageIdRef := streamingMessageIdRef c;
     toasts := toasts c; timeouts := timeouts c |}.

Definition setIsStreaming (v : bool) (c : Component) : Component :=
  {| sessionId := sessionId c; messages := messages c;
     currentImages := currentImages c; inputMessage := inputMessage c;
     isStreaming := v; streamingSteps := streamingSteps c;
     streamingMessageIdRef := streamingMessageIdRef c;
     toasts := toasts c; timeouts := timeouts c |}.

Definition setStreamingSteps
  (f : list StreamingStep -> list StreamingStep) (c : Component)
  : Component :=
  {| sessionId := sessionId c; messages := messages c;
     currentImages := currentImages c; inputMessage := inputMessage c;
     isStreaming := isStreaming c; streamingSteps := f (streamingSteps c);
     streamingMessageIdRef := streamingMessageIdRef c;
     toasts := toasts c; timeouts := timeouts c |}.

Definition setStreamingMessageIdRef (v : string) (c : Component)
  : Component :=
  {| sessionId := sessionId c; messages := messages c;
     currentImages := currentImages c; inputMessage := inputMessage c;
     isStreaming := isStreaming c; streamingSteps := streamingSteps c;
     streamingMessageIdRef := v;
     toasts := toasts c; timeouts := timeouts c |}.

Definition toast (t : Toast) (c : Component) : Component :=
  {| sessionId := sessionId c; messages := messages c;
     currentImages := currentImages c; inputMessage := inputMessage c;
     isStreaming := isStreaming c; streamingSteps := streamingSteps c;
     streamingMessageIdRef := streamingMessageIdRef c;
     toasts := (toasts c ++ [t])%list; timeouts := timeouts c |}.

Definition setTimeout (delay : Z) (c : Component) : Component :=
  {| sessionId := sessionId c; messages := messages c;
     currentImages := currentImages c; inputMessage := inputMessage c;
     isStreaming := isStreaming c; streamingSteps := streamingSteps c;
     streamingMessageIdRef := streamingMessageIdRef c;
     toasts := toasts c; timeouts := (timeouts c ++ [delay])%list |}.

Definition setSearchStepId (v : string) (es : EventSource) : EventSource :=
  {| es_session := es_session es; es_message := es_message es;
     closure_currentImages := closure_currentImages es;
     searchStepId := v; readStepId := readStepId es;
     writeStepId := writeStepId es; imagesStepId := imagesStepId es;
     closed := closed es |}.

Definition setReadStepId (v : string) (es : EventSource) : EventSource :=
  {| es_session := es_session es; es_message := es_message es;
     closure_currentImages := closure_currentImages es;
     searchStepId := searchStepId es; readStepId := v;
     writeStepId := writeStepId es; imagesStepId := imagesStepId es;
     closed := closed es |}.

Definition setWriteStepId (v : string) (es : EventSource) : EventSource :=
  {| es_session := es_session es; es_message := es_message es;
     closure_currentImages := closure_currentImages es;
     searchStepId := searchStepId es; readStepId := readStepId es;
     writeStepId := v; imagesStepId := imagesStepId es;
     closed := closed es |}.

Definition setImagesStepId (v : string) (es : EventSource) : EventSource :=
  {| es_session := es_session es; es_message := es_message es;
     closure_currentImages := closure_currentImages es;
     searchStepId := searchStepId es; readStepId := readStepId es;
     writeStepId := writeStepId es; imagesStepId := v;
     closed := closed es |}.

(** [eventSource.close()] *)
Definition close (es : EventSource) : EventSource :=
  {| es_session := es_session es; es_message := es_message es;
     closure_currentImages := closure_currentImages es;
     searchStepId := searchStepId es; readStepId := readStepId es;
     writeStepId := writeStepId es; imagesStepId := imagesStepId es;
     closed := true |}.

Definition updateStep (sid : string) (u : Updates) (c : Component)
  : Component :=
  setStreamingSteps
    (map (fun step => if (id step =? sid)%string then merge step u else step))
    c.

Definition addStep (step : StreamingStep) (c : Component) : Component :=
  setStreamingSteps (fun prev => (prev ++ [step])%list) c.

(** [prev.map(msg => msg.id === streamingMessageIdRef.current ? f msg : msg)] *)
Definition mapStreaming (f : Message -> Message) (c : Component)
  : Component :=
  setMessages
    (map (fun msg =>
            if (msg_id msg =? streamingMessageIdRef c)%string
            then f msg else msg))
    c.

Definition withImages (l : list ChatImage) (msg : Message) : Message :=
  {| msg_id := msg_id msg; msg_type := msg_type msg;
     content := content msg; images := Some l |}.

Definition withContent (s : string) (msg : Message) : Message :=
  {| msg_id := msg_id msg; msg_type := msg_type msg;
     content := s; images := images msg |}.

(** [{ ...msg, images: [...(msg.images || []), ...more] }] *)
Definition appendImages (more : list ChatImage) (msg : Message) : Message :=
  withImages (JS.orEmpty (images msg) ++ more)%list msg.

(** [{ ...msg, content: msg.content + text }] *)
Definition appendContent (text : string) (msg : Message) : Message :=
  withContent (content msg ++ text) msg.

(** [startStreaming(message)], reading [Date.now()] as [t1] then [t2].
    The closure keeps the [currentImages] of the calling render: the later
    [setCurrentImages([])] changes the state, not that binding. *)
Definition startStreaming (t1 t2 : Z) (message : string) (c : Component)
  : Component * option EventSource :=
  match sessionId c with
  | Some sid =>
      if JS.truthy sid then
        let c1 := setIsStreaming true c in
        let c2 := setInputMessage "" c1 in
        let c3 := setStreamingSteps (fun _ => []) c2 in
        let c4 := setCurrentImages (fun _ => []) c3 in
        let userMsg :=
          {| msg_id := JS.toString t1; msg_type := user;
             content := message; images := None |} in
        let c5 := setMessages (fun prev => (prev ++ [userMsg])%list) c4 in
        let c6 := setStreamingMessageIdRef (JS.toString (t2 + 1)) c5 in
        let assistantMsg :=
          {| msg_id := streamingMessageIdRef c6; msg_type := assistant;
             content := ""; images := Some [] |} in
        let c7 := setMessages (fun prev => (prev ++ [assistantMsg])%list) c6 in
        (c7, Some {| es_session := sid; es_message := message;
                     closure_currentImages := currentImages c;
                     searchStepId := ""; readStepId := "";
                     writeStepId := ""; imagesStepId := "";
                     closed := false |})
      else (toast (toast_error "Chat not initialized") c, None)
  | None => (toast (toast_error "Chat not initialized") c, None)
  end.

(** [eventSource.onmessage], with [now] the value of [Date.now()]. *)
Definition onmessage (now : Z) (ev : Event) (c : Component)
  (es : EventSource) : Component * EventSource :=
  match ev with
  | connected => (c, es)
  | search_start query =>
      let es1 := setSearchStepId ("search-" ++ JS.toString now) es in
      (addStep {| id := searchStepId es1; type := searching;
                  label := "Searching the document"; status := active;
                  details := Some [JS.orElse query (es_message es)] |} c,
       es1)
  | search_complete chunks_count sources =>
      let c1 :=
        if JS.truthy (searchStepId es) then
          updateStep (searchStepId es)
            {| u_status := Some StreamingSteps.complete;
               u_label := Some ("Found " ++ JS.toString chunks_count
                                ++ " relevant sections") |} c
        else c in
      let es1 := setReadStepId ("read-" ++ JS.toString now) es in
      (addStep {| id := readStepId es1; type := reading;
                  label := "Reading relevant sections"; status := active;
                  details := Some (JS.orEmpty sources) |} c1,
       es1)
  | images_found count =>
      let c1 :=
        if JS.truthy (readStepId es) then
          updateStep (readStepId es)
            {| u_status := Some StreamingSteps.complete;
               u_label := None |} c
        else c in
      if count >? 0 then
        let es1 := setImagesStepId ("images-" ++ JS.toString now) es in
        (addStep {| id := imagesStepId es1; type := StreamingSteps.images;
                    label := "Found " ++ JS.toString count
                             ++ " relevant images";
                    status := StreamingSteps.complete;
                    details := None |} c1,
         es1)
      else (c1, es)
  | image f d =>
      let newImage := {| filename := f; data := d |} in
      let c1 := setCurrentImages (fun prev => (prev ++ [newImage])%list) c in
      (mapStreaming (appendImages [newImage]) c1, es)
  | response_start =>
      let c1 :=
        if JS.truthy (readStepId es) then
          updateStep (readStepId es)
            {| u_status := Some StreamingSteps.complete;
               u_label := None |} c
        else c in
      let es1 := setWriteStepId ("write-" ++ JS.toString now) es in
      (addStep {| id := writeStepId es1; type := writing;
                  label := "Writing answer"; status := active;
                  details := None |} c1,
       es1)
  | content_delta text =>
      (mapStreaming (appendContent text) c, es)
  | complete =>
      let c1 :=
        if JS.truthy (writeStepId es) then
          updateStep (writeStepId es)
            {| u_status := Some StreamingSteps.complete;
               u_label := Some "Answer complete" |} c
        else c in
      (mapStreaming (appendImages (closure_currentImages es)) c1, es)
  | end_ =>
      (setTimeout 1000 (setIsStreaming false c), close es)
  | other => (c, es)
  end.

(** The callback scheduled by the [end] case. *)
Definition timeoutFires (c : Component) : Component :=
  setStreamingSteps (fun _ => []) c.

(** [eventSource.onerror] *)
Definition onerror (c : Component) (es : EventSource)
  : Component * EventSource :=
  let c1 := toast (toast_error "Connection error") c in
  let c2 := setIsStreaming false c1 in
  let c3 := setStreamingSteps (fun _ => []) c2 in
  (c3, close es).

(** [handleSendMessage] *)
Definition handleSendMessage (t1 t2 : Z) (c : Component)
  : Component * option EventSource :=
  if JS.blank (inputMessage c) || isStreaming c then (c, None)
  else startStreaming t1 t2 (inputMessage c) c.

(** [handleClearHistory], once [clearChatHistory] has succeeded. *)
Definition handleClearHistory (c : Component) : Component :=
  match sessionId c with
  | Some sid =>
      if JS.truthy sid then
        toast (toast_success "Chat history cleared")
          (setCurrentImages (fun _ => []) (setMessages (fun _ => []) c))
      else c
  | None => c
  end.

(** What the browser hands to the handlers of one [EventSource]. *)
Inductive Signal :=
| Msg (now : Z) (ev : Event)
| Err.

(** A closed [EventSource] dispatches nothing. *)
Definition deliver (s : Signal) (w : Component * EventSource)
  : Component * EventSource :=
  let (c, es) := w in
  if closed es then w
  else match s with
       | Msg now ev => onmessage now ev c es
       | Err => onerror c es
       end.

Definition run (sigs : list Signal) (w : Component * EventSource)
  : Component * EventSource :=
  fold_left (fun w s => deliver s w) sigs w.

(** The handler applied to a sequence of events, whatever the state of
    the channel. *)
Definition handle (evs : list (Z * Event)) (w : Component * EventSource)
  : Component * EventSource :=
  fold_left (fun w e => onmessage (fst e) (snd e) (fst w) (snd w)) evs w.

(** The message being streamed: the last one of the list. *)
Definition streamingMessage (c : Component) : option Message :=
  last (map Some (messages c)) None.

(** The images carried by the [image] events of a sequence, in order. *)
Fixpoint imagesOf (evs : list (Z * Event)) : list ChatImage :=
  match evs with
  | [] => []
  | (_, image f d) :: r => {| filename := f; data := d |} :: imagesOf r
  | _ :: r => imagesOf r
  end.

(** The texts carried by the [content] events of a sequence, joined. *)
Fixpoint textOf (evs : list (Z * Event)) : string :=
  match evs with
  | [] => ""
  | (_, content_delta t) :: r => t ++ textOf r
  | _ :: r => textOf r
  end.

(** What one event does to the message being streamed, for handlers
    that captured [ci] as [currentImages]. *)
Definition effect (ci : list ChatImage) (ev : Event) (m : Message)
  : Message :=
  match ev with
  | image f d => appendImages [{| filename := f; data := d |}] m
  | content_delta t => appendContent t m
  | complete => appendImages ci m
  | _ => m
  end.

(** The images attached by a sequence of events: each [image] event
    attaches its image, each [complete] event the captured list. *)
Fixpoint attached (ci : list ChatImage) (evs : list (Z * Event))
  : list ChatImage :=
  match evs with
  | [] => []
  | (_, image f d) :: r => {| filename := f; data := d |} :: attached ci r
  | (_, complete) :: r => (ci ++ attached ci r)%list
  | _ :: r => attached ci r
  end.

(** The effects of a sequence of events, applied to one message. *)
Definition effects (ci : list ChatImage) (evs : list (Z * Event))
  (m : Message) : Message :=
  fold_left (fun m e => effect ci (snd e) m) evs m.

(** What one signal does to the message being streamed. *)
Definition signalEffect (es : EventSource) (s : Signal) (m : Message)
  : Message :=
  if closed es then m
  else match s with
       | Msg _ ev => effect (closure_currentImages es) ev m
       | Err => m
       end.

(** The last message of the list is the one the ref designates. *)
Definition tracksLast (c : Component) : Prop :=
  exists l a, messages c = (l ++ [a])%list /\
              msg_id a = streamingMessageIdRef c.

End ChatInterface.

(** ** The reconnecting WebSocket hook ([useWebSocket.ts]) *)

Module UseWebSocket.

Record WebSocketMessage := {
  type : string;
  data : string
}.

Definition maxReconnectAttempts : Z := 5.

(** State and refs of the hook.  [sockets] counts the [WebSocket] objects
    created, [alive] tells whether the last one has not closed yet,
    [timers] holds the delays of the pending [setTimeout(connect)] calls
    and [scheduled] every delay ever passed to [setTimeout]. *)
Record Hook := {
  messages : list WebSocketMessage;
  connected : bool;
  error : option string;
  reconnectAttempts : Z;
  sockets : nat;
  alive : bool;
  timers : list Z;
  scheduled : list Z
}.

Definition initial : Hook :=
  {| messages := []; connected := false; error := None;
     reconnectAttempts := 0; sockets := 0%nat; alive := false;
     timers := []; scheduled := [] |}.

Definition setMessages (f : list WebSocketMessage -> list WebSocketMessage)
  (h : Hook) : Hook :=
  {| messages := f (messages h); connected := connected h;
     error := error h; reconnectAttempts := reconnectAttempts h;
     sockets := sockets h; alive := alive h; timers := timers h;
     scheduled := scheduled h |}.

Definition setConnected (v : bool) (h : Hook) : Hook :=
  {| messages := messages h; connected := v;
     error := error h; reconnectAttempts := reconnectAttempts h;
     sockets := sockets h; alive := alive h; timers := timers h;
     scheduled := scheduled h |}.

Definition setError (v : option string) (h : Hook) : Hook :=
  {| messages := messages h; connected := connected h;
     error := v; reconnectAttempts := reconnectAttempts h;
     sockets := sockets h; alive := alive h; timers := timers h;
     scheduled := scheduled h |}.

Definition setReconnectAttempts (v : Z) (h : Hook) : Hook :=
  {| messages := messages h; connected := connected h;
     error := error h; reconnectAttempts := v;
     sockets := sockets h; alive := alive h; timers := timers h;
     scheduled := scheduled h |}.

Definition setAlive (v : bool) (h : Hook) : Hook :=
  {| messages := messages h; connected := connected h;
     error := error h; reconnectAttempts := reconnectAttempts h;
     sockets := sockets h; alive := v; timers := timers h;
     scheduled := scheduled h |}.

Definition newSocket (h : Hook) : Hook :=
  {| messages := messages h; connected := connected h;
     error := error h; reconnectAttempts := reconnectAttempts h;
     sockets := S (sockets h); alive := true; timers := timers h;
     scheduled := scheduled h |}.

Definition setTimers (v : list Z) (h : Hook) : Hook :=
  {| messages := messages h; connected := connected h;
     error := error h; reconnectAttempts := reconnectAttempts h;
     sockets := sockets h; alive := alive h; timers := v;
     scheduled := scheduled h |}.

(** [setTimeout(() => connect(), delay)] *)
Definition setTimeout (delay : Z) (h : Hook) : Hook :=
  {| messages := messages h; connected := connected h;
     error := error h; reconnectAttempts := reconnectAttempts h;
     sockets := sockets h; alive := alive h;
     timers := (timers h ++ [delay])%list;
     scheduled := (scheduled h ++ [delay])%list |}.

(** [connect()]; [throws] tells whether [new WebSocket] raised. *)
Definition connect (throws : bool) (h : Hook) : Hook :=
  if throws then setError (Some "Failed to establish connection") h
  else newSocket h.

Definition onopen (h : Hook) : Hook :=
  setReconnectAttempts 0 (setError None (setConnected true h)).

(** [ws.onmessage]; [None] is a payload that [JSON.parse] rejects. *)
Definition onmessage (m : option WebSocketMessage) (h : Hook) : Hook :=
  match m with
  | Some message => setMessages (fun prev => (prev ++ [message])%list) h
  | None => h
  end.

Definition onerror (h : Hook) : Hook :=
  setError (Some "Connection error occurred") h.

(** The delay of the reconnection numbered [attempt]. *)
Definition reconnectDelay (attempt : Z) : Z := 2000 * attempt.

Definition onclose (h : Hook) : Hook :=
  let h1 := setConnected false h in
  if reconnectAttempts h1 <? maxReconnectAttempts then
    let h2 := setReconnectAttempts (reconnectAttempts h1 + 1) h1 in
    setTimeout (reconnectDelay (reconnectAttempts h2)) h2
  else setError (Some "Maximum reconnection attempts reached") h1.

(** What can happen to the hook once mounted. *)
Inductive Signal :=
| Open
| Message (m : option WebSocketMessage)
| Error
| Close
| Timer (throws : bool).

(** Socket events reach the handlers while the socket is alive; a timer
    fires when one is pending. *)
Definition deliver (s : Signal) (h : Hook) : Hook :=
  match s with
  | Open => if alive h then onopen h else h
  | Message m => if alive h then onmessage m h else h
  | Error => if alive h then onerror h else h
  | Close => if alive h then onclose (setAlive false h) else h
  | Timer throws =>
      match timers h with
      | [] => h
      | _ :: rest => connect throws (setTimers rest h)
      end
  end.

Definition run (sigs : list Signal) (h : Hook) : Hook :=
  fold_left (fun h s => deliver s h) sigs h.

(** The effect body: the first [connect()]. *)
Definition mount (throws : bool) (h : Hook) : Hook := connect throws h.

Definition isOpen (s : Signal) : bool :=
  match s with Open => true | _ => false end.

(** [n] rounds of a failing connection: the socket closes, the timer
    fires and a new socket is created. *)
Definition failing (n : nat) : list Signal :=
  List.concat (repeat [Close; Timer false] n).

End UseWebSocket.

(** ** The reconnecting server-sent-events hook ([useSSE.ts]) *)

Module UseSSE.

Inductive ReadyState := CONNECTING | OPEN | CLOSED.

Record Result := {
  document_id : string;
  chunks_processed : Z;
  images_extracted : Z;
  pickle_path : string;
  json_path : string;
  vector_store_path : string
}.

(** [SSEMessage['data']], with the fields the consumers read. *)
Record Data := {
  step : option Z;
  progress : option Z;
  message : option string;
  result : option Result
}.

Record SSEMessage := {
  type : string;
  data : Data
}.

(** A parsed payload: its own [type] and [data] members when present, and
    the payload itself read as [Data]. *)
Record Payload := {
  p_type : option string;
  p_data : option Data;
  p_self : Data
}.

(** State and refs of the hook.  Event sources are numbered in creation
    order; [eventSourceRef] is the number of the current one, [alive]
    tells whether it still dispatches events, a timer remembers the source
    whose handler scheduled it. *)
Record Hook := {
  messages : list SSEMessage;
  connected : bool;
  error : option string;
  eventSourceRef : option nat;
  sources : nat;
  alive : bool;
  timers : list nat;
  scheduled : list Z
}.

Definition initial : Hook :=
  {| messages := []; connected := false; error := None;
     eventSourceRef := None; sources := 0%nat; alive := false;
     timers := []; scheduled := [] |}.

Definition setMessages (f : list SSEMessage -> list SSEMessage) (h : Hook)
  : Hook :=
  {| messages := f (messages h); connected := connected h;
     error := error h; eventSourceRef := eventSourceRef h;
     sources := sources h; alive := alive h; timers := timers h;
     scheduled := scheduled h |}.

Definition setConnected (v : bool) (h : Hook) : Hook :=
  {| messages := messages h; connected := v;
     error := error h; eventSourceRef := eventSourceRef h;
     sources := sources h; alive := alive h; timers := timers h;
     scheduled := scheduled h |}.

Definition setError (v : option string) (h : Hook) : Hook :=
  {| messages := messages h; connected := connected h;
     error := v; eventSourceRef := eventSourceRef h;
     sources := sources h; alive := alive h; timers := timers h;
     scheduled := scheduled h |}.

Definition setAlive (v : bool) (h : Hook) : Hook :=
  {| messages := messages h; connected := connected h;
     error := error h; eventSourceRef := eventSourceRef h;
     sources := sources h; alive := v; timers := timers h;
     scheduled := scheduled h |}.

Definition setTimers (v : list nat) (h : Hook) : Hook :=
  {| messages := messages h; connected := connected h;
     error := error h; eventSourceRef := eventSourceRef h;
     sources := sources h; alive := alive h; timers := v;
     scheduled := scheduled h |}.

(** [new EventSource(..)] stored in [eventSourceRef.current]. *)
Definition newSource (h : Hook) : Hook :=
  {| messages := messages h; connected := connected h;
     error := error h; eventSourceRef := Some (sources h);
     sources := S (sources h); alive := true; timers := timers h;
     scheduled := scheduled h |}.

(** [setTimeout(.., delay)] from the handler of source [src]. *)
Definition setTimeout (src : nat) (delay : Z) (h : Hook) : Hook :=
  {| messages := messages h; connected := connected h;
     error := error h; eventSourceRef := eventSourceRef h;
     sources := sources h; alive := alive h;
     timers := (timers h ++ [src])%list;
     scheduled := (scheduled h ++ [delay])%list |}.

Definition connect (throws : bool) (h : Hook) : Hook :=
  if throws then setError (Some "Failed to establish connection") h
  else newSource h.

Definition onopen (h : Hook) : Hook :=
  setError None (setConnected true h).

(** [eventSource.onmessage]; [None] is a payload that [JSON.parse]
    rejects. *)
Definition onmessage (p : option Payload) (h : Hook) : Hook :=
  match p with
  | Some d =>
      let message :=
        {| type := JS.orElse (p_type d) "progress";
           data := match p_data d with Some x => x | None => p_self d end |}
      in
      setMessages (fun prev => (prev ++ [message])%list) h
  | None => h
  end.

Definition reconnectDelay : Z := 3000.

(** [eventSource.onerror] of source [src], whose [readyState] is [rs]. *)
Definition onerror (src : nat) (rs : ReadyState) (h : Hook) : Hook :=
  let h1 := setConnected false h in
  match rs with
  | CLOSED => h1
  | _ =>
      setTimeout src reconnectDelay
        (setError (Some "Connection error occurred") h1)
  end.

(** The callback scheduled by [onerror] of source [src]. *)
Definition timerFires (src : nat) (throws : bool) (h : Hook) : Hook :=
  match eventSourceRef h with
  | Some cur =>
      if (cur =? src)%nat then connect throws (setAlive false h) else h
  | None => h
  end.

Inductive Signal :=
| Open
| Message (p : option Payload)
| Error (rs : ReadyState)
| Timer (throws : bool).

(** Events of the current source reach its handlers while it is alive;
    an error that leaves it [CLOSED] is its last event. *)
Definition deliver (s : Signal) (h : Hook) : Hook :=
  match s with
  | Open => if alive h then onopen h else h
  | Message p => if alive h then onmessage p h else h
  | Error rs =>
      match alive h, eventSourceRef h with
      | true, Some src =>
          onerror src rs
            (match rs with CLOSED => setAlive false h | _ => h end)
      | _, _ => h
      end
  | Timer throws =>
      match timers h with
      | [] => h
      | src :: rest => timerFires src throws (setTimers rest h)
      end
  end.

Definition run (sigs : list Signal) (h : Hook) : Hook :=
  fold_left (fun h s => deliver s h) sigs h.

Definition mount (throws : bool) (h : Hook) : Hook := connect throws h.

(** An event source that is alive is the one the ref holds. *)
Definition hasSource (h : Hook) : Prop :=
  alive h = true -> exists src, eventSourceRef h = Some src.

(** [n] rounds of a dropped stream: the browser reports an error while
    reconnecting, then the timer of the handler fires. *)
Definition dropping (n : nat) : list Signal :=
  List.concat (repeat [Error CONNECTING; Timer false] n).

(** A progress stream that ends with a terminal [complete] event. *)
Definition completed : list Signal :=
  [Open;
   Message (Some {| p_type := Some "complete"; p_data := None;
                    p_self := {| step := None; progress := None;
                                 message := None; result := None |} |})].

End UseSSE.

(** ** The progress reducer ([ProcessingPage.tsx]) *)

Module ProcessingPage.

Import UseSSE.

Inductive StatusType := info | success | error | loading.

Record SavedProcessingData := {
  documentId : string;
  saved_result : Result;
  saved_processingTime : Z;
  completedAt : string
}.

Inductive Toast :=
| toast_success (m : string)
| toast_error (m : string).

(** State of the page; [localStorage] holds the records written under
    [processing_<documentId>], [toasts] the notifications shown. *)
Record Page := {
  currentStep : Z;
  progress : Z;
  statusMessage : string;
  statusType : StatusType;
  isComplete : bool;
  processingTime : Z;
  result : option Result;
  localStorage : list SavedProcessingData;
  toasts : list Toast
}.

Definition initial : Page :=
  {| currentStep := 1; progress := 0; statusMessage := "Initializing...";
     statusType := loading; isComplete := false; processingTime := 0;
     result := None; localStorage := []; toasts := [] |}.

Definition setCurrentStep (v : Z) (p : Page) : Page :=
  {| currentStep := v; progress := progress p;
     statusMessage := statusMessage p; statusType := statusType p;
     isComplete := isComplete p; processingTime := processingTime p;
     result := result p; localStorage := localStorage p;
     toasts := toasts p |}.

Definition setProgress (v : Z) (p : Page) : Page :=
  {| currentStep := currentStep p; progress := v;
     statusMessage := statusMessage p; statusType := statusType p;
     isComplete := isComplete p; processingTime := processingTime p;
     result := result p; localStorage := localStorage p;
     toasts := toasts p |}.

Definition setStatusMessage (v : string) (p : Page) : Page :=
  {| currentStep := currentStep p; progress := progress p;
     statusMessage := v; statusType := statusType p;
     isComplete := isComplete p; processingTime := processingTime p;
     result := result p; localStorage := localStorage p;
     toasts := toasts p |}.

Definition setStatusType (v : StatusType) (p : Page) : Page :=
  {| currentStep := currentStep p; progress := progress p;
     statusMessage := statusMessage p; statusType := v;
     isComplete := isComplete p; processingTime := processingTime p;
     result := result p; localStorage := localStorage p;
     toasts := toasts p |}.

Definition setIsComplete (v : bool) (p : Page) : Page :=
  {| currentStep := currentStep p; progress := progress p;
     statusMessage := statusMessage p; statusType := statusType p;
     isComplete := v; processingTime := processingTime p;
     result := result p; localStorage := localStorage p;
     toasts := toasts p |}.

Definition setResult (v : option Result) (p : Page) : Page :=
  {| currentStep := currentStep p; progress := progress p;
     statusMessage := statusMessage p; statusType := statusType p;
     isComplete := isComplete p; processingTime := processingTime p;
     result := v; localStorage := localStorage p;
     toasts := toasts p |}.

Definition setItem (v : SavedProcessingData) (p : Page) : Page :=
  {| currentStep := currentStep p; progress := progress p;
     statusMessage := statusMessage p; statusType := statusType p;
     isComplete := isComplete p; processingTime := processingTime p;
     result := result p; localStorage := (localStorage p ++ [v])%list;
     toasts := toasts p |}.

Definition toast (t : Toast) (p : Page) : Page :=
  {| currentStep := currentStep p; progress := progress p;
     statusMessage := statusMessage p; statusType := statusType p;
     isComplete := isComplete p; processingTime := processingTime p;
     result := result p; localStorage := localStorage p;
     toasts := (toasts p ++ [t])%list |}.

(** The [switch] on the last message; [documentId] is the route
    parameter and [now] the value of [new Date().toISOString()]. *)
Definition reduce (docId : option string) (now : string)
  (lastMessage : SSEMessage) (p : Page) : Page :=
  let d := data lastMessage in
  if (type lastMessage =? "connected")%string then
    setStatusType info
      (setStatusMessage
         (JS.orElse (message d) "Connected to processing stream") p)
  else if (type lastMessage =? "progress")%string then
    let p1 :=
      match step d with
      | Some n => if JS.truthyZ n then setCurrentStep n p else p
      | None => p
      end in
    let p2 :=
      match UseSSE.progress d with
      | Some n => if JS.truthyZ n then setProgress n p1 else p1
      | None => p1
      end in
    let p3 :=
      match message d with
      | Some m => if JS.truthy m then setStatusMessage m p2 else p2
      | None => p2
      end in
    setStatusType loading p3
  else if (type lastMessage =? "complete")%string then
    let p1 := setProgress 100 p in
    let p2 :=
      setStatusMessage (JS.orElse (message d) "Processing complete!") p1 in
    let p3 := setStatusType success p2 in
    let p4 := setIsComplete true p3 in
    let p5 := setResult (UseSSE.result d) p4 in
    let p6 :=
      match docId, UseSSE.result d with
      | Some doc, Some r =>
          if JS.truthy doc then
            setItem {| documentId := doc; saved_result := r;
                       saved_processingTime := processingTime p;
                       completedAt := now |} p5
          else p5
      | _, _ => p5
      end in
    toast (toast_success "Processing completed successfully!") p6
  else if (type lastMessage =? "error")%string then
    toast (toast_error "Processing failed")
      (setStatusType error
         (setStatusMessage (JS.orElse (message d) "An error occurred") p))
  else p.

(** The effect on [messages]: nothing for an empty list, otherwise the
    [switch] on the last element. *)
Definition onMessages (docId : option string) (now : string)
  (msgs : list SSEMessage) (p : Page) : Page :=
  match rev msgs with
  | [] => p
  | lastMessage :: _ => reduce docId now lastMessage p
  end.

End ProcessingPage.

(** ** The credential-rotation dispatcher

    The sources contain no dispatcher: every definition of this module
    follows the words of the specification. *)

Module Dispatcher.

(** Modelled from the spec: the dispatcher's slot state, "state in
    {Available, CoolingDown(until)}". *)
Inductive SlotState :=
| Available
| CoolingDown (until : Z).

(** Modelled from the spec: the dispatcher's "CredentialSlot: secret
    material, state, consecutiveFailures". *)
Record CredentialSlot := {
  secret : string;
  state : SlotState;
  consecutiveFailures : nat
}.

(** Modelled from the spec: the dispatcher's pool of N credentials with
    "the last-used index". *)
Record Pool := {
  slots : list CredentialSlot;
  lastUsed : nat
}.

(** Modelled from the spec: what the upstream provider answers to one
    call of the dispatcher: a result, "an upstream rate-limit signal"
    with its optional retry-after, or an exceeded deadline. *)
Inductive Response :=
| Success (units : list string)
| RateLimited (retryAfter : option Z)
| Timeout.

(** Modelled from the spec: the dispatcher's part of the error
    taxonomy. *)
Inductive DispatchError :=
| PoolExhausted
| UpstreamRateLimited
| UpstreamTimeout.

(** Modelled from the spec: the cool-down window, "provider-advertised
    retry-after if present, else a fixed default"; the default is a
    parameter, the source giving none. *)
Definition window (defaultWindow : Z) (retryAfter : option Z) : Z :=
  match retryAfter with
  | Some w => w
  | None => defaultWindow
  end.

(** Modelled from the spec: a slot can be selected at [now] when it is
    Available, or CoolingDown with its expiry reached ("self-heals to
    Available once past it", evaluated lazily at selection). *)
Definition usable (now : Z) (s : CredentialSlot) : bool :=
  match state s with
  | Available => true
  | CoolingDown until => until <=? now
  end.

(** Modelled from the spec: the round-robin order, "starting after the
    last-used index": the indices after [last], then those up to it. *)
Definition order (n last : nat) : list nat :=
  (seq (S last) (n - S last)%nat ++ seq 0 (Nat.min (S last) n))%list.

(** Modelled from the spec: selection of "the next Available credential
    starting after the last-used index". *)
Definition select (now : Z) (p : Pool) : option nat :=
  find (fun i => match nth_error (slots p) i with
                 | Some s => usable now s
                 | None => false
                 end)
       (order (List.length (slots p)) (lastUsed p)).

(** The list [l] with [f] applied at index [i]. *)
Fixpoint update {A : Type} (i : nat) (f : A -> A) (l : list A) : list A :=
  match l, i with
  | [], _ => []
  | x :: r, O => f x :: r
  | x :: r, S j => x :: update j f r
  end.

(** Modelled from the spec: on a rate-limit signal the credential is
    marked [CoolingDown(now + window)]. *)
Definition coolDown (defaultWindow now : Z) (retryAfter : option Z)
  (i : nat) (p : Pool) : Pool :=
  {| slots :=
       update i
         (fun s => {| secret := secret s;
                      state := CoolingDown (now + window defaultWindow
                                                         retryAfter);
                      consecutiveFailures := S (consecutiveFailures s) |})
         (slots p);
     lastUsed := i |}.

(** Modelled from the spec: a timeout is call-specific and "does not mark
    the credential CoolingDown". *)
Definition timedOut (i : nat) (p : Pool) : Pool :=
  {| slots :=
       update i
         (fun s => {| secret := secret s; state := Available;
                      consecutiveFailures := S (consecutiveFailures s) |})
         (slots p);
     lastUsed := i |}.

(** Modelled from the spec: the dispatcher's bookkeeping after a
    successful call: the credential is Available and becomes the last
    used. *)
Definition succeeded (i : nat) (p : Pool) : Pool :=
  {| slots :=
       update i
         (fun s => {| secret := secret s; state := Available;
                      consecutiveFailures := O |})
         (slots p);
     lastUsed := i |}.

(** Modelled from the spec: the dispatcher's failure once the attempts
    of a call are used up: "if every credential is CoolingDown, dispatch
    fails with PoolExhausted", otherwise with the last failure. *)
Definition giveUp (now : Z) (p : Pool) (e : DispatchError) : DispatchError :=
  match select now p with
  | None => PoolExhausted
  | Some _ => e
  end.

(** Modelled from the spec: one [dispatch] call, the dispatcher's code being
    absent from the sources.  [up k] is the provider's answer to the
    upstream call numbered [k], [calls] the number of upstream calls made
    so far.  Each round selects the next credential; a rate-limit signal
    cools it down and retries "with the next Available credential, up to
    N-1 further attempts within the same call"; "if every credential is
    CoolingDown, dispatch fails with PoolExhausted". *)
Fixpoint retry (further : nat) (defaultWindow now : Z)
  (up : nat -> Response) (calls : nat) (p : Pool)
  : (nat * list string + DispatchError) * Pool * nat :=
  match select now p with
  | None => (inr PoolExhausted, p, calls)
  | Some i =>
      match up calls with
      | Success units => (inl (i, units), succeeded i p, S calls)
      | RateLimited retryAfter =>
          let p' := coolDown defaultWindow now retryAfter i p in
          match further with
          | O => (inr (giveUp now p' UpstreamRateLimited), p', S calls)
          | S f => retry f defaultWindow now up (S calls) p'
          end
      | Timeout =>
          let p' := timedOut i p in
          match further with
          | O => (inr (giveUp now p' UpstreamTimeout), p', S calls)
          | S f => retry f defaultWindow now up (S calls) p'
          end
      end
  end.

(** Modelled from the spec: [dispatch], absent from the sources: a first
    attempt and "up to N-1 further attempts". *)
Definition dispatch (defaultWindow now : Z) (up : nat -> Response)
  (calls : nat) (p : Pool)
  : (nat * list string + DispatchError) * Pool * nat :=
  retry (List.length (slots p) - 1)%nat defaultWindow now up calls p.

(** Modelled from the spec: the dispatcher's initial pool, the given
    secrets all Available; the first selection starts at the first
    credential. *)
Definition create (secrets : list string) : Pool :=
  {| slots := map (fun k => {| secret := k; state := Available;
                               consecutiveFailures := O |}) secrets;
     lastUsed := (List.length secrets - 1)%nat |}.







(** Modelled from the spec: the orchestrator's state after Writing,
    Finalizing with the streamed units or Errored. *)
Inductive Outcome :=
| Finalizing (deltas : list string)
| Errored (e : DispatchError).

(** Modelled from the spec: the Writing state of the orchestrator, absent
    from the sources: "call generation via the Dispatcher"; "a Dispatcher
    failure moves the turn to Errored", surfaced with "no automatic
    higher-level retry". *)
Definition writing (defaultWindow now : Z) (up : nat -> Response)
  (calls : nat) (p : Pool) : Outcome * Pool * nat :=
  match dispatch defaultWindow now up calls p with
  | (inl (_, units), p', calls') => (Finalizing units, p', calls')
  | (inr e, p', calls') => (Errored e, p', calls')
  end.

End Dispatcher.

(** ** Reconnection of the WebSocket hook, after any history *)

Module Reconnect.

Import UseWebSocket.

(** The delays of [k] consecutive reconnections made when [a] attempts
    were already counted. *)
Definition delaysFrom (a : Z) (k : nat) : list Z :=
  map (fun i => reconnectDelay (a + Z.of_nat i)) (seq 1 k).

(** What holds of the hook in every state it reaches: the counter stays
    between 0 and the maximum, a socket and a pending timer exclude each
    other, and every delay ever scheduled is that of an attempt between
    1 and the maximum. *)
Definition wellFormed (h : Hook) : Prop :=
  0 <= reconnectAttempts h <= maxReconnectAttempts /\
  (alive h = true -> timers h = []) /\
  (List.length (timers h) <= 1)%nat /\
  Forall (fun d => exists a, 1 <= a <= maxReconnectAttempts /\
                             d = reconnectDelay a)
         (scheduled h).

(** What relates a state [h] to an earlier state [h0] when no socket has
    opened in between: the counter has grown by the number of
    reconnections scheduled since, with the delays of those attempts, and
    every socket created since comes from a timer. *)
Definition since (h0 h : Hook) : Prop :=
  reconnectAttempts h0 <= reconnectAttempts h /\
  scheduled h =
    (scheduled h0
       ++ delaysFrom (reconnectAttempts h0)
            (Z.to_nat (reconnectAttempts h - reconnectAttempts h0)))%list /\
  (sockets h + List.length (timers h) + List.length (scheduled h0)
   <= sockets h0 + List.length (timers h0) + List.length (scheduled h))%nat.

End Reconnect.

(** ** Backoff schedules *)

Module Backoff.

(** A bounded exponential schedule over the attempts [1 .. n]: the delay
    of attempt [k] is [min cap (base * r ^ (k - 1))] for a ratio
    [r = num / den] greater than one and a first delay below the bound.
    For each attempt either the exponential term is the delay, or the
    bound is and the exponential term has reached it. *)
Definition boundedExponential (delay : Z -> Z) (n : Z) : Prop :=
  exists base num den cap,
    0 < base < cap /\ 0 < den < num /\
    forall k, 1 <= k <= n ->
      (delay k * den ^ (k - 1) = base * num ^ (k - 1) /\ delay k <= cap) \/
      (delay k = cap /\ cap * den ^ (k - 1) <= base * num ^ (k - 1)).

End Backoff.

(** ** Concrete runs *)

Module Scenario.

Import ChatInterface.

Definition imgA : ChatImage := {| filename := "a.png"; data := "AAAA" |}.
Definition imgB : ChatImage := {| filename := "b.png"; data := "BBBB" |}.

(** A mounted component whose chat session is initialised. *)
Definition ready : Component := setSessionId (Some "session-1") initial.

(** First turn: the question is sent at time 1000. *)
Definition opened1 : Component * option EventSource :=
  startStreaming 1000 1000 "What is X?" ready.

Definition c1 : Component := fst opened1.

Definition es1 : EventSource :=
  {| es_session := "session-1"; es_message := "What is X?";
     closure_currentImages := [];
     searchStepId := ""; readStepId := ""; writeStepId := "";
     imagesStepId := ""; closed := false |}.

(** The first turn delivers one image, completes and ends. *)
Definition turn1 : list Signal :=
  [Msg 1001 (image "a.png" "AAAA"); Msg 1002 complete; Msg 1003 end_].

Definition afterTurn1 : Component := fst (run turn1 (c1, es1)).

(** The user types a second question and sends it at time 2000. *)
Definition opened2 : Component * option EventSource :=
  handleSendMessage 2000 2000 (setInputMessage "And Y?" afterTurn1).

Definition c2 : Component := fst opened2.

Definition es2 : EventSource :=
  {| es_session := "session-1"; es_message := "And Y?";
     closure_currentImages := [imgA];
     searchStepId := ""; readStepId := ""; writeStepId := "";
     imagesStepId := ""; closed := false |}.

(** The second turn delivers one image and completes. *)
Definition turn2 : list Signal :=
  [Msg 2001 (image "b.png" "BBBB"); Msg 2002 complete].

End Scenario.

(** ** Icons of the progress steps ([StreamingSteps.tsx]) *)

Module StreamingStepsView.

Import StreamingSteps.

Inductive Icon := Loader2 | Check | Search | BookOpen | Pencil | ImageIcon.

(** [getIcon(type, status)] *)
Definition getIcon (t : StepType) (s : StepStatus) : Icon :=
  match s with
  | active => Loader2
  | complete => Check
  | pending =>
      match t with
      | searching => Search
      | reading => BookOpen
      | writing => Pencil
      | images => ImageIcon
      end
  end.

End StreamingStepsView.

(** ** A chat session: the component and its current channel *)

Module ChatSession.

Import ChatInterface.

(** The component together with [eventSourceRef.current]. *)
Record Session := {
  component : Component;
  eventSourceRef : option EventSource
}.

Definition initial : Session :=
  {| component := ChatInterface.initial; eventSourceRef := None |}.

(** [initializeChat], by the outcome of the request: the session id
    received, or a failure. *)
Definition initializeChat (response : option string) (c : Component)
  : Component :=
  match response with
  | Some session_id =>
      toast (toast_success "Chat initialized successfully")
        (setSessionId (Some session_id) c)
  | None => toast (toast_error "Failed to initialize chat") c
  end.

(** What can happen to a mounted chat component. *)
Inductive Action :=
| Initialized (response : option string)
| Change (text : string)
| Send (t1 t2 : Z)
| Received (s : Signal)
| ClearHistory
| TimeoutFires.

Definition act (a : Action) (s : Session) : Session :=
  match a with
  | Initialized response =>
      {| component := initializeChat response (component s);
         eventSourceRef := eventSourceRef s |}
  | Change text =>
      {| component := setInputMessage text (component s);
         eventSourceRef := eventSourceRef s |}
  | Send t1 t2 =>
      match handleSendMessage t1 t2 (component s) with
      | (c, Some es) => {| component := c; eventSourceRef := Some es |}
      | (c, None) => {| component := c; eventSourceRef := eventSourceRef s |}
      end
  | Received sig =>
      match eventSourceRef s with
      | Some es =>
          let w := deliver sig (component s, es) in
          {| component := fst w; eventSourceRef := Some (snd w) |}
      | None => s
      end
  | ClearHistory =>
      {| component := handleClearHistory (component s);
         eventSourceRef := eventSourceRef s |}
  | TimeoutFires =>
      {| component := timeoutFires (component s);
         eventSourceRef := eventSourceRef s |}
  end.

Definition run (actions : list Action) (s : Session) : Session :=
  fold_left (fun s a => act a s) actions s.


(** A step that is active or complete. *)
Definition notPending (st : StreamingSteps.StreamingStep) : Prop :=
  StreamingSteps.status st <> StreamingSteps.pending.

(** The number of steps a sequence of events adds. *)
Fixpoint stepsAdded (evs : list (Z * Event)) : nat :=
  match evs with
  | [] => O
  | (_, search_start _) :: r => S (stepsAdded r)
  | (_, search_complete _ _) :: r => S (stepsAdded r)
  | (_, images_found count) :: r =>
      if count >? 0 then S (stepsAdded r) else stepsAdded r
  | (_, response_start) :: r => S (stepsAdded r)
  | _ :: r => stepsAdded r
  end.

End ChatSession.

(** ** The chat page ([ChatPage.tsx])

    The page repeats the state and the functions of [ChatInterface.tsx];
    its [onmessage] differs in the [image] case only, which collects the
    image in [currentImages] without touching the message. *)

Module ChatPage.

Import ChatInterface.

Definition onmessage (now : Z) (ev : Event) (c : Component)
  (es : EventSource) : Component * EventSource :=
  match ev with
  | image f d =>
      (setCurrentImages
         (fun prev => (prev ++ [{| filename := f; data := d |}])%list) c,
       es)
  | _ => ChatInterface.onmessage now ev c es
  end.

Definition handle (evs : list (Z * Event)) (w : Component * EventSource)
  : Component * EventSource :=
  fold_left (fun w e => onmessage (fst e) (snd e) (fst w) (snd w)) evs w.

(** What one event does to the message being streamed. *)
Definition effect (ci : list ChatImage) (ev : Event) (m : Message)
  : Message :=
  match ev with
  | content_delta t => appendContent t m
  | complete => appendImages ci m
  | _ => m
  end.

(** The images attached by a sequence of events: the captured list, once
    for each [complete]. *)
Fixpoint attached (ci : list ChatImage) (evs : list (Z * Event))
  : list ChatImage :=
  match evs with
  | [] => []
  | (_, complete) :: r => (ci ++ attached ci r)%list
  | _ :: r => attached ci r
  end.

End ChatPage.

(** ** Display and persistence of the processing page
    ([ProcessingPage.tsx], [StepIndicator.tsx]) *)

Module ProcessingView.

Import UseSSE ProcessingPage.

(** [localStorage.getItem] of the record of a document: the last one
    written for it. *)
Definition getItem (docId : string) (store : list SavedProcessingData)
  : option SavedProcessingData :=
  find (fun d => (documentId d =? docId)%string) (rev store).

(** The page with the state the mount effect adds. *)
Record Mounted := {
  page : Page;
  hasSavedData : bool;
  savedData : option SavedProcessingData
}.

Definition setProcessingTime (v : Z) (p : Page) : Page :=
  {| currentStep := currentStep p; ProcessingPage.progress := ProcessingPage.progress p;
     statusMessage := statusMessage p; statusType := statusType p;
     isComplete := isComplete p; processingTime := v;
     ProcessingPage.result := ProcessingPage.result p;
     localStorage := localStorage p; toasts := toasts p |}.

Definition mounted (p : Page) : Mounted :=
  {| page := p; hasSavedData := false; savedData := None |}.

(** The effect that loads the saved data of [documentId] on mount. *)
Definition loadSaved (docId : option string) (m : Mounted) : Mounted :=
  match docId with
  | Some doc =>
      if JS.truthy doc then
        match getItem doc (localStorage (page m)) with
        | Some d =>
            {| page :=
                 setCurrentStep 4
                   (setStatusType success
                      (setStatusMessage "Processing complete!"
                         (setProcessingTime (saved_processingTime d)
                            (setResult (Some (saved_result d))
                               (setProgress 100
                                  (setIsComplete true (page m)))))));
               hasSavedData := true;
               savedData := Some d |}
        | None => m
        end
      else m
  | None => m
  end.

(** The argument of [useSSE]: [hasSavedData ? null : (documentId || null)] *)
Definition sseDocument (docId : option string) (m : Mounted)
  : option string :=
  if hasSavedData m then None
  else match docId with
       | Some doc => if JS.truthy doc then Some doc else None
       | None => None
       end.

(** The messages handled one after the other, each by its own run of the
    effect, at the times given. *)
Definition feed (docId : option string) (msgs : list (string * SSEMessage))
  (p : Page) : Page :=
  fold_left (fun p m => reduce docId (fst m) (snd m) p) msgs p.

(** The circle of a step of [StepIndicator]. *)
Inductive Circle := Completed | Active | Idle.

Definition steps : list Z := [1; 2; 3; 4].

(** [isCompleted ? .. : isActive ? .. : ..] for the step numbered
    [number]. *)
Definition circle (currentStep number : Z) : Circle :=
  let isActive := currentStep >=? number in
  let isCompleted := currentStep >? number in
  if isCompleted then Completed
  else if isActive then Active
  else Idle.

Definition circles (currentStep : Z) : list Circle :=
  map (circle currentStep) steps.

End ProcessingView.

(** ** The document list of a project ([ProjectPage.tsx]) *)

Module ProjectPage.

Inductive Status := processing | complete | error.

Record UploadedDoc := {
  name : string;
  size : Z;
  documentId : string;
  uploadedAt : string;
  status : option Status;
  projectId : option string
}.

(** [{ ...doc, status: 'complete' }] *)
Definition completed (doc : UploadedDoc) : UploadedDoc :=
  {| name := name doc; size := size doc; documentId := documentId doc;
     uploadedAt := uploadedAt doc; status := Some complete;
     projectId := projectId doc |}.

(** The [docs.map] of [loadDocuments]; [processed id] tells whether
    [localStorage] holds an item under [processing_<id>]. *)
Definition refresh (processed : string -> bool) (docs : list UploadedDoc)
  : list UploadedDoc :=
  map (fun doc =>
         match status doc with
         | Some processing =>
             if processed (documentId doc) then completed doc else doc
         | _ => doc
         end)
      docs.

(** [hasUpdates] after the [docs.map]. *)
Definition hasUpdates (processed : string -> bool) (docs : list UploadedDoc)
  : bool :=
  existsb (fun doc =>
             match status doc with
             | Some processing => processed (documentId doc)
             | _ => false
             end)
          docs.

(** [loadDocuments]: [savedDocs] is the parsed item [project_<id>_docs],
    [stored] what the key holds and [uploadedDocs] the state; the result
    is the new value of both. *)
Definition loadDocuments (processed : string -> bool)
  (stored : option (list UploadedDoc)) (uploadedDocs : list UploadedDoc)
  : option (list UploadedDoc) * list UploadedDoc :=
  match stored with
  | Some docs =>
      let docs' := refresh processed docs in
      (if hasUpdates processed docs then Some docs' else stored, docs')
  | None => (stored, uploadedDocs)
  end.

(** The lookup of [processing_<id>] in the store written by the
    processing page. *)
Definition processedIn (store : list ProcessingPage.SavedProcessingData)
  (id : string) : bool :=
  match ProcessingView.getItem id store with
  | Some _ => true
  | None => false
  end.

End ProjectPage.

(** ** Runs and invariants of the hooks *)

Module HookRuns.

(** [n] rounds of a connection that opens and is dropped: the socket
    opens, closes, and the timer creates the next one. *)
Definition flapping (n : nat) : list UseWebSocket.Signal :=
  List.concat
    (repeat [UseWebSocket.Open; UseWebSocket.Close;
             UseWebSocket.Timer false] n).

(** The hook never reports [connected] for a socket that has closed. *)
Definition connectedIsAlive (h : UseWebSocket.Hook) : Prop :=
  UseWebSocket.connected h = true -> UseWebSocket.alive h = true.

(** The message [onmessage] of [useSSE] builds from a payload. *)
Definition normalize (p : UseSSE.Payload) : UseSSE.SSEMessage :=
  {| UseSSE.type := JS.orElse (UseSSE.p_type p) "progress";
     UseSSE.data := match UseSSE.p_data p with
                    | Some x => x
                    | None => UseSSE.p_self p
                    end |}.

(** [k] errors of the current source in a row, then [m] timers firing. *)
Definition burst (k m : nat) : list UseSSE.Signal :=
  (repeat (UseSSE.Error UseSSE.CONNECTING) k
     ++ repeat (UseSSE.Timer false) m)%list.

(** Signals of a source that works: it opens and delivers messages. *)
Definition quiet (s : UseSSE.Signal) : bool :=
  match s with
  | UseSSE.Open | UseSSE.Message _ => true
  | _ => false
  end.

Definition isOpen (s : UseSSE.Signal) : bool :=
  match s with
  | UseSSE.Open => true
  | _ => false
  end.

(** Sources are numbered in creation order: the current one is the last
    created, and a pending timer belongs to it or to an earlier one. *)
Definition numbered (h : UseSSE.Hook) : Prop :=
  match UseSSE.eventSourceRef h with
  | Some cur =>
      S cur = UseSSE.sources h /\
      Forall (fun t => (t <= cur)%nat) (UseSSE.timers h)
  | None => UseSSE.sources h = O /\ UseSSE.timers h = []
  end.

(** Every pending timer belongs to a source older than the current. *)
Definition stale (h : UseSSE.Hook) : Prop :=
  match UseSSE.eventSourceRef h with
  | Some cur => Forall (fun t => (t < cur)%nat) (UseSSE.timers h)
  | None => UseSSE.timers h = []
  end.

End HookRuns.

(** * Properties *)

(** ** Chat consumer *)

Section ChatProperties.

Import ChatInterface.

Lemma map_cond_same {A : Type} (p : A -> bool) (l : list A) :
  map (fun x => if p x then x else x) l = l.
Proof.
  induction l as [|x l IH]; simpl; [reflexivity|].
  rewrite IH. destruct (p x); reflexivity.
Qed.

Lemma updateStep_messages sid u c :
  messages (updateStep sid u c) = messages c.
Proof. reflexivity. Qed.

Lemma addStep_messages st c : messages (addStep st c) = messages c.
Proof. reflexivity. Qed.

(** The handler rewrites the message list pointwise, touching only the
    messages that carry the streaming id. *)
Lemma onmessage_messages now ev c es :
  messages (fst (onmessage now ev c es)) =
  map (fun m => if (msg_id m =? streamingMessageIdRef c)%string
                then effect (closure_currentImages es) ev m else m)
      (messages c).
Proof.
  destruct ev; simpl; try (symmetry; apply map_cond_same);
    try (destruct (JS.truthy _); simpl; symmetry; apply map_cond_same);
    try reflexivity.
  - destruct (JS.truthy _), (count >? 0); simpl; symmetry;
      apply map_cond_same.
  - destruct (JS.truthy _); reflexivity.
Qed.

Lemma onmessage_ref now ev c es :
  streamingMessageIdRef (fst (onmessage now ev c es)) =
  streamingMessageIdRef c.
Proof.
  destruct ev; simpl; try reflexivity;
    try (destruct (JS.truthy _); reflexivity).
  destruct (JS.truthy _), (count >? 0); reflexivity.
Qed.

Lemma onmessage_closure now ev c es :
  closure_currentImages (snd (onmessage now ev c es)) =
  closure_currentImages es.
Proof.
  destruct ev; simpl; try reflexivity.
  destruct (count >? 0); reflexivity.
Qed.

Lemma effect_id ci ev m : msg_id (effect ci ev m) = msg_id m.
Proof. destruct ev; reflexivity. Qed.

Lemma effects_cons ci e evs m :
  effects ci (e :: evs) m = effects ci evs (effect ci (snd e) m).
Proof. reflexivity. Qed.

Lemma effects_id ci evs m : msg_id (effects ci evs m) = msg_id m.
Proof.
  revert m; induction evs as [|e evs IH]; intros m;
    [reflexivity|].
  rewrite effects_cons, IH. apply effect_id.
Qed.

Lemma effects_content ci evs m :
  content (effects ci evs m) = (content m ++ textOf evs)%string.
Proof.
  assert (nil_r : forall s, (s ++ "")%string = s)
    by (induction s as [|a s IHs]; simpl; congruence).
  assert (assoc : forall s t u,
             ((s ++ t) ++ u)%string = (s ++ t ++ u)%string)
    by (induction s as [|a s IHs]; intros; simpl; congruence).
  revert m; induction evs as [|[n ev] evs IH]; intros m.
  - simpl. now rewrite nil_r.
  - rewrite effects_cons, IH.
    destruct ev; simpl; try reflexivity. apply assoc.
Qed.

Lemma effects_images ci evs m :
  JS.orEmpty (images (effects ci evs m)) =
  (JS.orEmpty (images m) ++ attached ci evs)%list.
Proof.
  revert m; induction evs as [|[n ev] evs IH]; intros m.
  - simpl. now rewrite app_nil_r.
  - rewrite effects_cons, IH.
    destruct ev; simpl; try reflexivity; now rewrite <- app_assoc.
Qed.

(** The message appended by [startStreaming] stays the last one and
    accumulates the effects of the events handled. *)
Lemma handle_last evs : forall c es l a,
  messages c = (l ++ [a])%list ->
  msg_id a = streamingMessageIdRef c ->
  streamingMessage (fst (handle evs (c, es))) =
  Some (effects (closure_currentImages es) evs a).
Proof.
  induction evs as [|[now ev] evs IH]; intros c es l a Hm Hid.
  - simpl. unfold streamingMessage. rewrite Hm, map_app. simpl.
    apply last_last.
  - simpl.
    pose proof (onmessage_messages now ev c es) as HM.
    pose proof (onmessage_ref now ev c es) as HR.
    pose proof (onmessage_closure now ev c es) as HC.
    destruct (onmessage now ev c es) as [c' es'] eqn:E. simpl in *.
    rewrite Hm, map_app in HM. simpl in HM.
    rewrite Hid, String.eqb_refl in HM.
    rewrite (IH c' es' _ _ HM).
    + rewrite HC. reflexivity.
    + rewrite effect_id, HR. exact Hid.
Qed.

Lemma startStreaming_last t1 t2 message c c' es :
  startStreaming t1 t2 message c = (c', Some es) ->
  exists l,
    messages c' =
      (l ++ [{| msg_id := JS.toString (t2 + 1); msg_type := assistant;
                content := ""; images := Some [] |}])%list /\
    streamingMessageIdRef c' = JS.toString (t2 + 1) /\
    closure_currentImages es = currentImages c.
Proof.
  unfold startStreaming. destruct (sessionId c) as [sid|]; [|discriminate].
  destruct (JS.truthy sid); [|discriminate].
  intros H; injection H as <- <-. simpl.
  eexists. split; [reflexivity|]. split; reflexivity.
Qed.

Lemma startStreaming_tracksLast t1 t2 message c c' es :
  startStreaming t1 t2 message c = (c', Some es) -> tracksLast c'.
Proof.
  intros H. destruct (startStreaming_last _ _ _ _ _ _ H) as (l & Hl & Hr & _).
  exists l; eexists. split; [exact Hl|]. simpl. now rewrite Hr.
Qed.

Lemma onerror_frame c es :
  messages (fst (onerror c es)) = messages c /\
  currentImages (fst (onerror c es)) = currentImages c /\
  sessionId (fst (onerror c es)) = sessionId c /\
  inputMessage (fst (onerror c es)) = inputMessage c /\
  streamingMessageIdRef (fst (onerror c es)) = streamingMessageIdRef c /\
  timeouts (fst (onerror c es)) = timeouts c.
Proof. repeat split. Qed.

(** One delivered signal: the streamed message receives the effect of
    the signal and remains the designated last message. *)
Lemma deliver_streaming s c es :
  tracksLast c ->
  tracksLast (fst (deliver s (c, es))) /\
  exists m,
    streamingMessage c = Some m /\
    streamingMessage (fst (deliver s (c, es))) = Some (signalEffect es s m).
Proof.
  intros (l & a & Hm & Hid).
  assert (Hs : streamingMessage c = Some a).
  { unfold streamingMessage. rewrite Hm, map_app. apply last_last. }
  unfold deliver, signalEffect.
  destruct (closed es) eqn:Hc.
  - split; [exists l, a; now split|]. exists a. now split.
  - destruct s as [now ev|].
    + pose proof (onmessage_messages now ev c es) as HM.
      pose proof (onmessage_ref now ev c es) as HR.
      destruct (onmessage now ev c es) as [c' es'] eqn:E. simpl in *.
      rewrite Hm, map_app in HM. simpl in HM.
      rewrite Hid, String.eqb_refl in HM.
      split.
      * eexists; eexists. split; [exact HM|].
        rewrite effect_id, HR. exact Hid.
      * exists a. split; [exact Hs|].
        unfold streamingMessage. rewrite HM, map_app. apply last_last.
    + split; [exists l, a; now split|]. exists a. split; [exact Hs|].
      unfold streamingMessage. simpl. rewrite Hm, map_app. apply last_last.
Qed.

Lemma run_cons s sigs w : run (s :: sigs) w = run sigs (deliver s w).
Proof. reflexivity. Qed.

Lemma run_tracksLast sigs : forall c es,
  tracksLast c -> tracksLast (fst (run sigs (c, es))).
Proof.
  induction sigs as [|s sigs IH]; intros c es H; [exact H|].
  rewrite run_cons.
  destruct (deliver_streaming s c es H) as [H' _].
  destruct (deliver s (c, es)) as [c' es'] eqn:E.
  apply IH. exact H'.
Qed.

Lemma run_app sigs1 sigs2 w :
  run (sigs1 ++ sigs2) w = run sigs2 (run sigs1 w).
Proof. unfold run. apply fold_left_app. Qed.

(** A closed channel dispatches nothing. *)
Lemma run_closed sigs : forall c es,
  closed es = true -> run sigs (c, es) = (c, es).
Proof.
  induction sigs as [|s sigs IH]; intros c es H; [reflexivity|].
  rewrite run_cons. unfold deliver at 1. rewrite H. now apply IH.
Qed.

Lemma attached_nil evs : attached [] evs = imagesOf evs.
Proof.
  induction evs as [|[n ev] evs IH]; simpl; [reflexivity|].
  destruct ev; simpl; congruence.
Qed.

Lemma textOf_deltas (ds : list (Z * string)) :
  textOf (map (fun d => (fst d, content_delta (snd d))) ds) =
  String.concat "" (map snd ds).
Proof.
  induction ds as [|[n t] ds IH]; simpl; [reflexivity|].
  rewrite IH. destruct ds as [|d ds]; simpl; [|reflexivity].
  induction t as [|a t IHt]; simpl; congruence.
Qed.

(** The images of the streamed message after a sequence of events: those
    of the [image] events, and the captured [currentImages] once more for
    each [complete]. *)
Lemma turn_images t1 t2 message c c' es evs :
  startStreaming t1 t2 message c = (c', Some es) ->
  exists m,
    streamingMessage (fst (handle evs (c', es))) = Some m /\
    JS.orEmpty (images m) = attached (currentImages c) evs.
Proof.
  intros H.
  destruct (startStreaming_last _ _ _ _ _ _ H) as (l & Hl & Hr & Hc).
  eexists. split.
  - apply (handle_last evs c' es l _ Hl). simpl. now rewrite Hr.
  - rewrite effects_images, Hc. reflexivity.
Qed.

(** A turn started with no image left in [currentImages] carries exactly
    the images of its [image] events, in arrival order. *)
Lemma first_turn_images t1 t2 message c c' es evs :
  startStreaming t1 t2 message c = (c', Some es) ->
  currentImages c = [] ->
  exists m,
    streamingMessage (fst (handle evs (c', es))) = Some m /\
    JS.orEmpty (images m) = imagesOf evs.
Proof.
  intros H Hnil.
  destruct (turn_images _ _ _ _ _ _ evs H) as (m & Hm & Hi).
  exists m. split; [exact Hm|]. now rewrite Hi, Hnil, attached_nil.
Qed.

(** C1 (as stated, refuted): an [image] event delivered after [complete]
    is not ignored; the images of the assistant turn change. *)
Lemma C1_image_after_complete_counterexample :
  let w := run [Msg 1001 complete] (Scenario.c1, Scenario.es1) in
  let w' := deliver (Msg 1002 (image "a.png" "AAAA")) w in
  option_map images (streamingMessage (fst w)) = Some (Some []) /\
  option_map images (streamingMessage (fst w')) =
    Some (Some [Scenario.imgA]).
Proof. split; reflexivity. Qed.

(** C1 (amended): the consumer keeps no finalized flag.  An [image] event
    delivered after [complete] while the channel is still open is handled
    like any other: the image is appended to the images of the assistant
    turn, whose text is untouched, and to [currentImages].  Once the
    channel has been closed nothing is delivered. *)
Theorem C1_image_after_complete_is_appended
  t1 t2 message c c' es sigs1 n sigs2 now f d :
  startStreaming t1 t2 message c = (c', Some es) ->
  let w := run (sigs1 ++ [Msg n complete] ++ sigs2) (c', es) in
  let w' := deliver (Msg now (image f d)) w in
  let img := {| filename := f; data := d |} in
  if closed (snd w) then w' = w
  else
    (exists m,
        streamingMessage (fst w) = Some m /\
        streamingMessage (fst w') =
          Some {| msg_id := msg_id m; msg_type := msg_type m;
                  content := content m;
                  images := Some (JS.orEmpty (images m) ++ [img])%list |})
    /\ currentImages (fst w') = (currentImages (fst w) ++ [img])%list.
Proof.
  intros H w w' img.
  pose proof (run_tracksLast (sigs1 ++ [Msg n complete] ++ sigs2) c' es
                (startStreaming_tracksLast _ _ _ _ _ _ H)) as HT.
  fold w in HT. subst w'. destruct w as [cw esw]. simpl in *.
  destruct (deliver_streaming (Msg now (image f d)) cw esw HT)
    as [_ (m & Hm & Hm')].
  unfold signalEffect in Hm'. unfold deliver in *.
  destruct (closed esw); [reflexivity|].
  split; [exists m; split; [exact Hm|exact Hm']|reflexivity].
Qed.

(** The amended C1 at the first turn of the scenario. *)
Lemma C1_image_after_complete_is_appended_witness :
  let w := run ([] ++ [Msg 1001 complete] ++ [])
               (Scenario.c1, Scenario.es1) in
  let w' := deliver (Msg 1002 (image "a.png" "AAAA")) w in
  if closed (snd w) then w' = w
  else
    (exists m,
        streamingMessage (fst w) = Some m /\
        streamingMessage (fst w') =
          Some {| msg_id := msg_id m; msg_type := msg_type m;
                  content := content m;
                  images :=
                    Some (JS.orEmpty (images m) ++ [Scenario.imgA])%list |})
    /\ currentImages (fst w') = (currentImages (fst w) ++ [Scenario.imgA])%list.
Proof.
  apply (C1_image_after_complete_is_appended
           1000 1000 "What is X?" Scenario.ready Scenario.c1 Scenario.es1
           [] 1001 [] 1002 "a.png" "AAAA").
  reflexivity.
Defined.

(** C4 (evaluated at the failing input): in a second turn the handlers
    captured the [currentImages] left by the first one, and [complete]
    appends them: the second answer ends with its own image followed by
    the image of the first turn. *)
Theorem C4_second_turn_receives_stale_images :
  Scenario.opened2 = (Scenario.c2, Some Scenario.es2) /\
  option_map images
    (streamingMessage
       (fst (run Scenario.turn2 (Scenario.c2, Scenario.es2)))) =
  Some (Some [Scenario.imgB; Scenario.imgA]).
Proof. split; reflexivity. Qed.

(** C5: after the events of a turn have been handled, the text of the
    assistant turn is the concatenation, in arrival order, of the texts
    of its [content] events. *)
Theorem C5_text_is_concatenation_of_deltas t1 t2 message c c' es evs :
  startStreaming t1 t2 message c = (c', Some es) ->
  exists m,
    streamingMessage (fst (handle evs (c', es))) = Some m /\
    msg_type m = assistant /\
    content m = textOf evs.
Proof.
  intros H.
  destruct (startStreaming_last _ _ _ _ _ _ H) as (l & Hl & Hr & Hc).
  eexists. split; [|split].
  - apply (handle_last evs c' es l _ Hl). simpl. now rewrite Hr.
  - clear. induction evs as [|e evs IH] using rev_ind; [reflexivity|].
    unfold effects in *. rewrite fold_left_app. simpl.
    destruct (snd e); simpl; exact IH.
  - rewrite effects_content. reflexivity.
Qed.

(** C5 on a turn streaming two deltas. *)
Lemma C5_text_is_concatenation_of_deltas_witness :
  exists m,
    streamingMessage
      (fst (handle [(1001, response_start); (1002, content_delta "X is ");
                    (1003, content_delta "a letter.")]
              (Scenario.c1, Scenario.es1))) = Some m /\
    msg_type m = assistant /\
    content m = "X is a letter.".
Proof.
  apply (C5_text_is_concatenation_of_deltas
           1000 1000 "What is X?" Scenario.ready Scenario.c1 Scenario.es1
           [(1001, response_start); (1002, content_delta "X is ");
            (1003, content_delta "a letter.")]).
  reflexivity.
Defined.

(** C6 (as stated, refuted): a [content] event delivered after [complete]
    changes the text of the assistant turn. *)
Lemma C6_text_after_complete_counterexample :
  let w := run [Msg 1001 (content_delta "X"); Msg 1002 complete]
               (Scenario.c1, Scenario.es1) in
  let w' := deliver (Msg 1003 (content_delta "!")) w in
  option_map content (streamingMessage (fst w)) = Some "X" /\
  option_map content (streamingMessage (fst w')) = Some "X!".
Proof. split; reflexivity. Qed.

(** C6 (amended): whatever has been delivered before, [complete]
    included, a delivered signal changes the text of the assistant turn
    only if it is a [content] event reaching an open channel, and then
    appends its text; every other signal leaves the text as it is. *)
Theorem C6_text_changes_only_by_content_deltas
  t1 t2 message c c' es sigs s :
  startStreaming t1 t2 message c = (c', Some es) ->
  let w := run sigs (c', es) in
  let w' := deliver s w in
  exists m m',
    streamingMessage (fst w) = Some m /\
    streamingMessage (fst w') = Some m' /\
    content m' =
      match s with
      | Msg _ (content_delta t) =>
          if closed (snd w) then content m else (content m ++ t)%string
      | _ => content m
      end.
Proof.
  intros H w w'.
  pose proof (run_tracksLast sigs c' es
                (startStreaming_tracksLast _ _ _ _ _ _ H)) as HT.
  fold w in HT. subst w'. destruct w as [cw esw]. simpl in *.
  destruct (deliver_streaming s cw esw HT) as [_ (m & Hm & Hm')].
  exists m; eexists. split; [exact Hm|]. split; [exact Hm'|].
  unfold signalEffect. destruct (closed esw).
  - destruct s as [k []|]; reflexivity.
  - destruct s as [k []|]; reflexivity.
Qed.

(** The amended C6 on a delta delivered after [complete]. *)
Lemma C6_text_changes_only_by_content_deltas_witness :
  let w := run [Msg 1001 (content_delta "X"); Msg 1002 complete]
               (Scenario.c1, Scenario.es1) in
  let w' := deliver (Msg 1003 (content_delta "!")) w in
  exists m m',
    streamingMessage (fst w) = Some m /\
    streamingMessage (fst w') = Some m' /\
    content m' =
      (if closed (snd w) then content m else (content m ++ "!")%string).
Proof.
  apply (C6_text_changes_only_by_content_deltas
           1000 1000 "What is X?" Scenario.ready Scenario.c1 Scenario.es1
           [Msg 1001 (content_delta "X"); Msg 1002 complete]
           (Msg 1003 (content_delta "!"))).
  reflexivity.
Defined.

(** C7 (as stated, refuted): a turn that fails after one image and one
    delta, and the same turn finished by [complete] and [end], leave the
    same message list, the same answer and the same streaming status.  A
    message is its id, role, content and images and nothing else, so
    nothing marks the answer of the failed turn as unfinalized. *)
Lemma C7_failed_answer_carries_no_mark_counterexample :
  let partial := [Msg 1001 (image "a.png" "AAAA");
                  Msg 1002 (content_delta "X is ")] in
  let failed := run (partial ++ [Err])%list (Scenario.c1, Scenario.es1) in
  let finished :=
    run (partial ++ [Msg 1003 complete; Msg 1004 end_])%list
      (Scenario.c1, Scenario.es1) in
  messages (fst failed) = messages (fst finished) /\
  streamingMessage (fst failed) =
    Some {| msg_id := "1001"; msg_type := assistant; content := "X is ";
            images := Some [Scenario.imgA] |} /\
  streamingMessage (fst finished) = streamingMessage (fst failed) /\
  isStreaming (fst failed) = isStreaming (fst finished) /\
  currentImages (fst failed) = currentImages (fst finished) /\
  streamingSteps (fst failed) = streamingSteps (timeoutFires (fst finished)) /\
  closed (snd failed) = closed (snd finished) /\
  (forall a b : Message,
      msg_id a = msg_id b -> msg_type a = msg_type b ->
      content a = content b -> images a = images b -> a = b).
Proof.
  repeat split.
  intros [i1 t1 c1 g1] [i2 t2 c2 g2]. simpl. congruence.
Qed.

(** C7 (amended): when the channel of a turn fails after some events
    have been handled, the error handler leaves the message list as it
    is: the assistant turn keeps the text and the images streamed so
    far.  Only the streaming status changes ([isStreaming],
    [streamingSteps], the closed channel), and nothing is delivered
    afterwards.  No mark of an unfinalized answer is part of it. *)
Theorem C7_failed_turn_keeps_partial_results
  t1 t2 message c c' es evs more :
  startStreaming t1 t2 message c = (c', Some es) ->
  let w1 := handle evs (c', es) in
  let w2 := onerror (fst w1) (snd w1) in
  messages (fst w2) = messages (fst w1) /\
  currentImages (fst w2) = currentImages (fst w1) /\
  sessionId (fst w2) = sessionId (fst w1) /\
  inputMessage (fst w2) = inputMessage (fst w1) /\
  streamingMessageIdRef (fst w2) = streamingMessageIdRef (fst w1) /\
  (exists m,
      streamingMessage (fst w2) = Some m /\
      content m = textOf evs /\
      JS.orEmpty (images m) = attached (currentImages c) evs) /\
  isStreaming (fst w2) = false /\
  streamingSteps (fst w2) = [] /\
  closed (snd w2) = true /\
  run more w2 = w2.
Proof.
  intros H w1 w2.
  destruct (onerror_frame (fst w1) (snd w1)) as (F1 & F2 & F3 & F4 & F5 & _).
  repeat (split; [assumption|]).
  split.
  - destruct (startStreaming_last _ _ _ _ _ _ H) as (l & Hl & Hr & Hc).
    eexists. split; [|split].
    + change (streamingMessage (fst w2))
        with (streamingMessage (fst w1)).
      apply (handle_last evs c' es l _ Hl). simpl. now rewrite Hr.
    + rewrite effects_content. reflexivity.
    + rewrite effects_images, Hc. reflexivity.
  - repeat split. subst w2. simpl. apply run_closed. reflexivity.
Qed.

(** The amended C7 on a turn that fails after one image and one delta. *)
Lemma C7_failed_turn_keeps_partial_results_witness :
  let w1 := handle [(1001, image "a.png" "AAAA");
                    (1002, content_delta "X is ")]
              (Scenario.c1, Scenario.es1) in
  let w2 := onerror (fst w1) (snd w1) in
  messages (fst w2) = messages (fst w1) /\
  currentImages (fst w2) = currentImages (fst w1) /\
  sessionId (fst w2) = sessionId (fst w1) /\
  inputMessage (fst w2) = inputMessage (fst w1) /\
  streamingMessageIdRef (fst w2) = streamingMessageIdRef (fst w1) /\
  (exists m,
      streamingMessage (fst w2) = Some m /\
      content m = "X is " /\
      JS.orEmpty (images m) = [Scenario.imgA]) /\
  isStreaming (fst w2) = false /\
  streamingSteps (fst w2) = [] /\
  closed (snd w2) = true /\
  run [Msg 1003 (content_delta "a letter.")] w2 = w2.
Proof.
  apply (C7_failed_turn_keeps_partial_results
           1000 1000 "What is X?" Scenario.ready Scenario.c1 Scenario.es1
           [(1001, image "a.png" "AAAA"); (1002, content_delta "X is ")]
           [Msg 1003 (content_delta "a letter.")]).
  reflexivity.
Defined.

End ChatProperties.

(** ** Reconnection *)

Section ReconnectProperties.

Lemma ws_delaysFrom_S a k :
  Reconnect.delaysFrom a (S k) =
  (Reconnect.delaysFrom a k
     ++ [UseWebSocket.reconnectDelay (a + Z.of_nat (S k))])%list.
Proof.
  unfold Reconnect.delaysFrom. rewrite seq_S, map_app. reflexivity.
Qed.

Lemma ws_delaysFrom_length a k :
  List.length (Reconnect.delaysFrom a k) = k.
Proof.
  unfold Reconnect.delaysFrom. now rewrite length_map, length_seq.
Qed.

Lemma ws_mount_wellFormed throws :
  Reconnect.wellFormed (UseWebSocket.mount throws UseWebSocket.initial).
Proof.
  unfold Reconnect.wellFormed, UseWebSocket.maxReconnectAttempts.
  destruct throws; simpl; repeat split; auto; lia.
Qed.

Lemma ws_deliver_wellFormed s h :
  Reconnect.wellFormed h ->
  Reconnect.wellFormed (UseWebSocket.deliver s h).
Proof.
  unfold Reconnect.wellFormed, UseWebSocket.maxReconnectAttempts.
  intros (Hr & Hal & Ht & Hd).
  destruct s as [ | m | | | throws]; simpl.
  - destruct (UseWebSocket.alive h) eqn:Ha; simpl; rewrite ?Ha;
      repeat split; auto; lia.
  - destruct (UseWebSocket.alive h) eqn:Ha;
      [|rewrite Ha; repeat split; auto; lia].
    destruct m; simpl; rewrite Ha; repeat split; auto; lia.
  - destruct (UseWebSocket.alive h) eqn:Ha; simpl; rewrite ?Ha;
      repeat split; auto; lia.
  - destruct (UseWebSocket.alive h) eqn:Ha;
      [|rewrite Ha; repeat split; auto; lia].
    pose proof (Hal eq_refl) as Htm.
    unfold UseWebSocket.onclose, UseWebSocket.maxReconnectAttempts. simpl.
    destruct (UseWebSocket.reconnectAttempts h <? 5) eqn:Hlt; simpl.
    + apply Z.ltb_lt in Hlt. rewrite Htm. simpl.
      repeat split; try lia; try discriminate.
      apply Forall_app. split; [exact Hd|].
      constructor; [|constructor].
      exists (UseWebSocket.reconnectAttempts h + 1). split; [lia|reflexivity].
    + rewrite Htm. simpl. repeat split; try lia; try discriminate; auto.
  - destruct (UseWebSocket.timers h) as [|t rest] eqn:Et.
    + rewrite Et. repeat split; auto; lia.
    + assert (rest = []) by (destruct rest; simpl in *; [reflexivity|lia]).
      subst rest.
      destruct throws; simpl; repeat split; auto; lia.
Qed.

Lemma ws_run_wellFormed sigs : forall h,
  Reconnect.wellFormed h ->
  Reconnect.wellFormed (UseWebSocket.run sigs h).
Proof.
  induction sigs as [|s sigs IH]; intros h H; [exact H|].
  change (UseWebSocket.run (s :: sigs) h)
    with (UseWebSocket.run sigs (UseWebSocket.deliver s h)).
  apply IH. now apply ws_deliver_wellFormed.
Qed.

Lemma ws_since_refl h : Reconnect.since h h.
Proof.
  unfold Reconnect.since. rewrite Z.sub_diag. simpl.
  rewrite app_nil_r. repeat split; lia.
Qed.

Lemma ws_deliver_since s h0 h :
  UseWebSocket.isOpen s = false ->
  Reconnect.wellFormed h ->
  Reconnect.since h0 h ->
  Reconnect.since h0 (UseWebSocket.deliver s h).
Proof.
  unfold Reconnect.wellFormed, Reconnect.since,
    UseWebSocket.maxReconnectAttempts.
  intros Hs (Hr & Hal & Ht & _) (Hle & Hsch & Hso).
  destruct s as [ | m | | | throws]; simpl in *; try discriminate.
  - destruct (UseWebSocket.alive h) eqn:Ha; [|auto].
    destruct m; simpl; auto.
  - destruct (UseWebSocket.alive h) eqn:Ha; simpl; auto.
  - destruct (UseWebSocket.alive h) eqn:Ha; [|auto].
    pose proof (Hal eq_refl) as Htm. rewrite Htm in Hso.
    unfold UseWebSocket.onclose, UseWebSocket.maxReconnectAttempts. simpl.
    destruct (UseWebSocket.reconnectAttempts h <? 5) eqn:Hlt; simpl.
    + apply Z.ltb_lt in Hlt.
      split; [lia|]. split.
      * replace (Z.to_nat (UseWebSocket.reconnectAttempts h + 1
                           - UseWebSocket.reconnectAttempts h0))
          with (S (Z.to_nat (UseWebSocket.reconnectAttempts h
                             - UseWebSocket.reconnectAttempts h0))) by lia.
        rewrite ws_delaysFrom_S, Hsch, app_assoc.
        replace (UseWebSocket.reconnectAttempts h0
                 + Z.of_nat (S (Z.to_nat (UseWebSocket.reconnectAttempts h
                                  - UseWebSocket.reconnectAttempts h0))))
          with (UseWebSocket.reconnectAttempts h + 1) by lia.
        reflexivity.
      * rewrite Htm. simpl. rewrite length_app. simpl in *. lia.
    + rewrite Htm. simpl in *. auto.
  - destruct (UseWebSocket.timers h) as [|t rest] eqn:Et.
    + rewrite Et. auto.
    + destruct throws; simpl in *; repeat split; auto; lia.
Qed.

Lemma ws_run_since sigs : forall h0 h,
  forallb (fun s => negb (UseWebSocket.isOpen s)) sigs = true ->
  Reconnect.wellFormed h ->
  Reconnect.since h0 h ->
  Reconnect.since h0 (UseWebSocket.run sigs h).
Proof.
  induction sigs as [|s sigs IH]; intros h0 h Hs Hw Hc; [exact Hc|].
  simpl in Hs. apply andb_prop in Hs as [Hs1 Hs2].
  apply negb_true_iff in Hs1.
  change (UseWebSocket.run (s :: sigs) h)
    with (UseWebSocket.run sigs (UseWebSocket.deliver s h)).
  apply IH; [exact Hs2|now apply ws_deliver_wellFormed|].
  now apply ws_deliver_since.
Qed.

(** Without a socket and without a pending timer nothing happens. *)
Lemma ws_run_dead sigs : forall h,
  UseWebSocket.alive h = false ->
  UseWebSocket.timers h = [] ->
  UseWebSocket.run sigs h = h.
Proof.
  induction sigs as [|s sigs IH]; intros h Ha Ht; [reflexivity|].
  change (UseWebSocket.run (s :: sigs) h)
    with (UseWebSocket.run sigs (UseWebSocket.deliver s h)).
  assert (UseWebSocket.deliver s h = h) as ->
    by (destruct s; simpl; rewrite ?Ha, ?Ht; reflexivity).
  now apply IH.
Qed.

Lemma sse_deliver_hasSource s h :
  UseSSE.hasSource h -> UseSSE.hasSource (UseSSE.deliver s h).
Proof.
  unfold UseSSE.hasSource. intros H.
  destruct s as [ | p | rs | throws]; simpl.
  - destruct (UseSSE.alive h) eqn:Ha; simpl; rewrite ?Ha; auto.
  - destruct (UseSSE.alive h) eqn:Ha; [|rewrite Ha; auto].
    destruct p; simpl; rewrite Ha; auto.
  - destruct (UseSSE.alive h) eqn:Ha; [|rewrite Ha; auto].
    destruct (UseSSE.eventSourceRef h) as [src|] eqn:Hr;
      [|rewrite Ha, Hr; auto].
    destruct rs; simpl; rewrite ?Hr; eauto; discriminate.
  - destruct (UseSSE.timers h) as [|src rest]; [exact H|].
    unfold UseSSE.timerFires. simpl.
    destruct (UseSSE.eventSourceRef h) as [cur|] eqn:Hr; simpl.
    + destruct (cur =? src)%nat; simpl.
      * destruct throws; simpl; [discriminate|eauto].
      * rewrite Hr. eauto.
    + rewrite Hr. exact H.
Qed.

Lemma sse_run_hasSource sigs : forall h,
  UseSSE.hasSource h -> UseSSE.hasSource (UseSSE.run sigs h).
Proof.
  induction sigs as [|s sigs IH]; intros h H; [exact H|].
  change (UseSSE.run (s :: sigs) h)
    with (UseSSE.run sigs (UseSSE.deliver s h)).
  apply IH. now apply sse_deliver_hasSource.
Qed.

Lemma sse_mount_hasSource throws :
  UseSSE.hasSource (UseSSE.mount throws UseSSE.initial).
Proof.
  unfold UseSSE.hasSource. destruct throws; simpl; [discriminate|eauto].
Qed.

Lemma sse_run_dead sigs : forall h,
  UseSSE.alive h = false ->
  UseSSE.timers h = [] ->
  UseSSE.run sigs h = h.
Proof.
  induction sigs as [|s sigs IH]; intros h Ha Ht; [reflexivity|].
  change (UseSSE.run (s :: sigs) h)
    with (UseSSE.run sigs (UseSSE.deliver s h)).
  assert (UseSSE.deliver s h = h) as ->
    by (destruct s; simpl; rewrite ?Ha, ?Ht; reflexivity).
  now apply IH.
Qed.

Lemma sse_deliver_scheduled s h :
  Forall (fun d => d = UseSSE.reconnectDelay) (UseSSE.scheduled h) ->
  Forall (fun d => d = UseSSE.reconnectDelay)
    (UseSSE.scheduled (UseSSE.deliver s h)).
Proof.
  intros H. destruct s as [ | p | rs | throws]; simpl.
  - destruct (UseSSE.alive h); exact H.
  - destruct (UseSSE.alive h); [|exact H]. destruct p; exact H.
  - destruct (UseSSE.alive h); [|exact H].
    destruct (UseSSE.eventSourceRef h); [|exact H].
    destruct rs; simpl; try exact H;
      apply Forall_app; split; auto.
  - destruct (UseSSE.timers h) as [|src rest]; [exact H|].
    unfold UseSSE.timerFires. simpl.
    destruct (UseSSE.eventSourceRef h) as [cur|]; [|exact H].
    destruct (cur =? src)%nat; [|exact H]. destruct throws; exact H.
Qed.

Lemma sse_run_scheduled sigs : forall h,
  Forall (fun d => d = UseSSE.reconnectDelay) (UseSSE.scheduled h) ->
  Forall (fun d => d = UseSSE.reconnectDelay)
    (UseSSE.scheduled (UseSSE.run sigs h)).
Proof.
  induction sigs as [|s sigs IH]; intros h H; [exact H|].
  change (UseSSE.run (s :: sigs) h)
    with (UseSSE.run sigs (UseSSE.deliver s h)).
  apply IH. now apply sse_deliver_scheduled.
Qed.

(** C2 (as stated, refuted): the server-sent-events hook keeps no attempt
    counter.  After six dropped connections in a row it has resubscribed
    six times, is connected to a seventh source and reports no final
    failure. *)
Lemma C2_sse_keeps_resubscribing_counterexample :
  let h := UseSSE.run (UseSSE.dropping 6)
             (UseSSE.mount false UseSSE.initial) in
  UseSSE.sources h = 7%nat /\
  UseSSE.scheduled h = repeat 3000 6 /\
  UseSSE.alive h = true /\
  UseSSE.error h = Some "Connection error occurred".
Proof. repeat split. Qed.

(** C2 (amended): for the WebSocket hook, after any history (sockets
    that opened, messages, earlier failures), as long as no socket opens
    in between, at most [maxReconnectAttempts] (5) further reconnections
    are scheduled, the counter counting them, and at most that many
    further sockets are created beyond the pending one; when the socket
    closes with the counter at five, the hook schedules nothing, reports
    "Maximum reconnection attempts reached", and nothing happens
    afterwards.  The server-sent-events hook keeps no counter: whatever
    happened before, an error that does not find its source [CLOSED]
    schedules one more reconnection. *)
Theorem C2_websocket_gives_up_after_five_attempts throws history sigs :
  forallb (fun s => negb (UseWebSocket.isOpen s)) sigs = true ->
  let h0 := UseWebSocket.run history
              (UseWebSocket.mount throws UseWebSocket.initial) in
  let h := UseWebSocket.run sigs h0 in
  (List.length (UseWebSocket.scheduled h)
   <= List.length (UseWebSocket.scheduled h0) + 5)%nat /\
  (UseWebSocket.sockets h + List.length (UseWebSocket.timers h)
   <= UseWebSocket.sockets h0 + List.length (UseWebSocket.timers h0) + 5)%nat
  /\
  0 <= UseWebSocket.reconnectAttempts h <= UseWebSocket.maxReconnectAttempts
  /\
  UseWebSocket.reconnectAttempts h =
    UseWebSocket.reconnectAttempts h0
    + (Z.of_nat (List.length (UseWebSocket.scheduled h))
       - Z.of_nat (List.length (UseWebSocket.scheduled h0))) /\
  (UseWebSocket.reconnectAttempts h = UseWebSocket.maxReconnectAttempts ->
   UseWebSocket.alive h = true ->
   let h' := UseWebSocket.deliver UseWebSocket.Close h in
   UseWebSocket.scheduled h' = UseWebSocket.scheduled h /\
   UseWebSocket.timers h' = [] /\
   UseWebSocket.sockets h' = UseWebSocket.sockets h /\
   UseWebSocket.error h' = Some "Maximum reconnection attempts reached" /\
   forall more, UseWebSocket.run more h' = h') /\
  (forall throws' sigs' rs,
      let g := UseSSE.run sigs' (UseSSE.mount throws' UseSSE.initial) in
      UseSSE.alive g = true ->
      rs <> UseSSE.CLOSED ->
      UseSSE.scheduled (UseSSE.deliver (UseSSE.Error rs) g) =
        (UseSSE.scheduled g ++ [3000])%list).
Proof.
  intros Hs h0 h.
  assert (W0 : Reconnect.wellFormed h0)
    by (apply ws_run_wellFormed, ws_mount_wellFormed).
  assert (W : Reconnect.wellFormed h) by (now apply ws_run_wellFormed).
  destruct (ws_run_since sigs h0 h0 Hs W0 (ws_since_refl h0))
    as (Hle & Hsch & Hso).
  fold h in Hle, Hsch, Hso.
  destruct W0 as (Hr0 & _ & Ht0 & _). destruct W as (Hr & Hal & Ht & _).
  unfold UseWebSocket.maxReconnectAttempts in *.
  assert (Hlen : List.length (UseWebSocket.scheduled h) =
                 (List.length (UseWebSocket.scheduled h0)
                  + Z.to_nat (UseWebSocket.reconnectAttempts h
                              - UseWebSocket.reconnectAttempts h0))%nat)
    by (rewrite Hsch, length_app, ws_delaysFrom_length; reflexivity).
  split; [lia|]. split; [lia|]. split; [lia|]. split; [lia|]. split.
  - intros H5 Ha. pose proof (Hal Ha) as Htm.
    set (h' := UseWebSocket.deliver UseWebSocket.Close h).
    assert (Hd : h' =
              UseWebSocket.setError
                (Some "Maximum reconnection attempts reached")
                (UseWebSocket.setConnected false
                   (UseWebSocket.setAlive false h))).
    { subst h'. simpl. rewrite Ha.
      unfold UseWebSocket.onclose, UseWebSocket.maxReconnectAttempts.
      simpl. rewrite H5. reflexivity. }
    rewrite Hd. simpl.
    split; [reflexivity|]. split; [exact Htm|].
    split; [reflexivity|]. split; [reflexivity|].
    intros more. apply ws_run_dead; [reflexivity|exact Htm].
  - intros throws' sigs' rs Hg Hrs.
    destruct (sse_run_hasSource sigs' _ (sse_mount_hasSource throws') Hg)
      as [src Hsrc].
    simpl. rewrite Hg, Hsrc.
    destruct rs; [reflexivity|reflexivity|congruence].
Qed.

(** The amended C2 on a channel that was established, received a
    payload, and then fails five times in a row. *)
Lemma C2_websocket_gives_up_after_five_attempts_witness :
  let h0 := UseWebSocket.run
              [UseWebSocket.Open; UseWebSocket.Message None]
              (UseWebSocket.mount false UseWebSocket.initial) in
  let h := UseWebSocket.run (UseWebSocket.failing 5) h0 in
  let h' := UseWebSocket.deliver UseWebSocket.Close h in
  UseWebSocket.connected h0 = true /\
  UseWebSocket.scheduled h = [2000; 4000; 6000; 8000; 10000] /\
  UseWebSocket.sockets h = 6%nat /\
  UseWebSocket.scheduled h' = UseWebSocket.scheduled h /\
  UseWebSocket.error h' = Some "Maximum reconnection attempts reached" /\
  UseWebSocket.run (UseWebSocket.failing 3) h' = h' /\
  (let g := UseSSE.run (UseSSE.dropping 6)
              (UseSSE.mount false UseSSE.initial) in
   UseSSE.scheduled (UseSSE.deliver (UseSSE.Error UseSSE.CONNECTING) g) =
     (UseSSE.scheduled g ++ [3000])%list).
Proof.
  destruct (C2_websocket_gives_up_after_five_attempts
              false [UseWebSocket.Open; UseWebSocket.Message None]
              (UseWebSocket.failing 5) eq_refl)
    as (_ & _ & _ & _ & H & G).
  destruct (H eq_refl eq_refl) as (H1 & _ & _ & H4 & H5).
  split; [reflexivity|]. split; [reflexivity|]. split; [reflexivity|].
  split; [exact H1|]. split; [exact H4|]. split; [apply H5|].
  apply (G false (UseSSE.dropping 6) UseSSE.CONNECTING eq_refl).
  discriminate.
Defined.

(** C8 (as stated, refuted): after a terminal [complete] event on the
    progress stream, a closure of the channel makes either hook
    reconnect: a second source, respectively a second socket, is
    created. *)
Lemma C8_reconnects_after_terminal_event_counterexample :
  (let h := UseSSE.run
              (UseSSE.completed
                 ++ [UseSSE.Error UseSSE.CONNECTING; UseSSE.Timer false])
              (UseSSE.mount false UseSSE.initial) in
   map UseSSE.type (UseSSE.messages h) = ["complete"] /\
   UseSSE.scheduled h = [3000] /\
   UseSSE.sources h = 2%nat) /\
  (let h := UseWebSocket.run
              [UseWebSocket.Open;
               UseWebSocket.Message
                 (Some {| UseWebSocket.type := "complete";
                          UseWebSocket.data := "{}" |});
               UseWebSocket.Close; UseWebSocket.Timer false]
              (UseWebSocket.mount false UseWebSocket.initial) in
   map UseWebSocket.type (UseWebSocket.messages h) = ["complete"] /\
   UseWebSocket.scheduled h = [2000] /\
   UseWebSocket.sockets h = 2%nat).
Proof. repeat split. Qed.

(** C8 (amended): on the chat stream, once [end] has been processed the
    channel is closed and nothing is delivered or reconnected afterwards.
    On the progress stream the hook looks at the state of the event
    source, not at the events received: an error that finds the source
    [CLOSED] schedules no reconnection and creates no source, and if no
    timer was pending nothing happens afterwards.  The WebSocket hook
    schedules a reconnection at every close met with fewer than five
    attempts counted, whatever messages it has received. *)
Theorem C8_graceful_closures :
  (forall w sigs n more,
      let w1 := ChatInterface.run
                  (sigs ++ [ChatInterface.Msg n ChatInterface.end_]) w in
      ChatInterface.closed (snd w1) = true /\
      ChatInterface.run more w1 = w1) /\
  (forall throws sigs,
      let h := UseSSE.run sigs (UseSSE.mount throws UseSSE.initial) in
      let h' := UseSSE.deliver (UseSSE.Error UseSSE.CLOSED) h in
      UseSSE.scheduled h' = UseSSE.scheduled h /\
      UseSSE.timers h' = UseSSE.timers h /\
      UseSSE.sources h' = UseSSE.sources h /\
      UseSSE.alive h' = false /\
      (UseSSE.timers h = [] -> forall more, UseSSE.run more h' = h')) /\
  (forall h,
      UseWebSocket.alive h = true ->
      UseWebSocket.reconnectAttempts h < UseWebSocket.maxReconnectAttempts ->
      UseWebSocket.scheduled (UseWebSocket.deliver UseWebSocket.Close h) =
        (UseWebSocket.scheduled h
           ++ [2000 * (UseWebSocket.reconnectAttempts h + 1)])%list).
Proof.
  split; [|split].
  - intros w sigs n more w1.
    assert (Hc : ChatInterface.closed (snd w1) = true).
    { subst w1. rewrite run_app.
      destruct (ChatInterface.run sigs w) as [c es].
      rewrite run_cons. simpl.
      destruct (ChatInterface.closed es) eqn:E; simpl; auto. }
    split; [exact Hc|].
    destruct w1 as [c1 e1]. now apply run_closed.
  - intros throws sigs h h'.
    pose proof (sse_run_hasSource sigs _ (sse_mount_hasSource throws)) as HS.
    fold h in HS. unfold UseSSE.hasSource in HS.
    assert (UseSSE.scheduled h' = UseSSE.scheduled h /\
            UseSSE.timers h' = UseSSE.timers h /\
            UseSSE.sources h' = UseSSE.sources h /\
            UseSSE.alive h' = false) as (H1 & H2 & H3 & H4).
    { subst h'. simpl. destruct (UseSSE.alive h) eqn:Ha.
      - destruct (HS eq_refl) as [src ->]. simpl. auto.
      - rewrite Ha. auto. }
    repeat (split; [assumption|]).
    intros Hnil more. apply sse_run_dead; [exact H4|congruence].
  - intros h Ha Hlt. simpl. rewrite Ha.
    unfold UseWebSocket.onclose. simpl.
    apply Z.ltb_lt in Hlt. rewrite Hlt. reflexivity.
Qed.

(** C9 (as stated, refuted): neither hook waits according to a bounded
    exponential schedule: the WebSocket delays 2000, 4000, 6000, ... have
    no constant ratio, the server-sent-events delay does not grow. *)
Lemma C9_backoff_not_exponential_counterexample :
  ~ Backoff.boundedExponential UseWebSocket.reconnectDelay 5 /\
  ~ Backoff.boundedExponential (fun _ => UseSSE.reconnectDelay) 5.
Proof.
  unfold Backoff.boundedExponential, UseWebSocket.reconnectDelay,
    UseSSE.reconnectDelay.
  split; intros (base & num & den & cap & Hb & Hr & H).
  - pose proof (H 1 ltac:(lia)) as H1.
    pose proof (H 2 ltac:(lia)) as H2.
    pose proof (H 3 ltac:(lia)) as H3.
    pose proof (H 4 ltac:(lia)) as H4.
    change (1 - 1) with 0 in H1. change (2 - 1) with 1 in H2.
    change (3 - 1) with 2 in H3. change (4 - 1) with 3 in H4.
    rewrite !Z.pow_0_r in H1. rewrite !Z.pow_1_r in H2.
    rewrite !Z.pow_2_r in H3.
    assert (Hd : 0 < den * den) by nia.
    destruct H1 as [[E1 _]|[E1 L1]]; [|lia].
    destruct H2 as [[E2 _]|[E2 L2]].
    + assert (num = 2 * den) by lia. subst num.
      destruct H3 as [[E3 _]|[E3 L3]]; [nia|].
      destruct H4 as [[_ L4]|[E4 _]]; lia.
    + destruct H3 as [[_ L3]|[E3 _]]; lia.
  - pose proof (H 1 ltac:(lia)) as H1.
    pose proof (H 2 ltac:(lia)) as H2.
    change (1 - 1) with 0 in H1. change (2 - 1) with 1 in H2.
    rewrite !Z.pow_0_r in H1. rewrite !Z.pow_1_r in H2.
    destruct H1 as [[E1 _]|[E1 L1]]; [|lia].
    destruct H2 as [[E2 _]|[E2 L2]]; nia.
Qed.

(** C9 (amended): after any history, as long as no socket opens, the
    WebSocket hook waits 2000 ms times the attempt number before each
    reconnection, the attempts being counted from the last open (which
    resets the counter to 0) or from the mount: 2000, 4000, 6000, 8000,
    10000 ms for the first to the fifth consecutive reconnection.  The
    delay grows linearly and never exceeds 10000, since at most 5
    attempts are made.  The server-sent-events hook always waits 3000. *)
Theorem C9_reconnect_delays_linear_and_constant throws history sigs :
  forallb (fun s => negb (UseWebSocket.isOpen s)) sigs = true ->
  let h0 := UseWebSocket.run history
              (UseWebSocket.mount throws UseWebSocket.initial) in
  let h := UseWebSocket.run sigs h0 in
  (exists k, (k <= 5)%nat /\
     UseWebSocket.reconnectAttempts h =
       UseWebSocket.reconnectAttempts h0 + Z.of_nat k /\
     UseWebSocket.scheduled h =
       (UseWebSocket.scheduled h0
          ++ map (fun i => 2000 * (UseWebSocket.reconnectAttempts h0
                                   + Z.of_nat i))
                 (seq 1 k))%list) /\
  Forall (fun d => 2000 <= d <= 10000) (UseWebSocket.scheduled h) /\
  (UseWebSocket.alive h0 = true ->
   UseWebSocket.reconnectAttempts
     (UseWebSocket.deliver UseWebSocket.Open h0) = 0) /\
  (history = [] -> UseWebSocket.reconnectAttempts h0 = 0) /\
  forall throws' sigs',
    Forall (fun d => d = 3000)
      (UseSSE.scheduled
         (UseSSE.run sigs' (UseSSE.mount throws' UseSSE.initial))).
Proof.
  intros Hs h0 h.
  assert (W0 : Reconnect.wellFormed h0)
    by (apply ws_run_wellFormed, ws_mount_wellFormed).
  assert (W : Reconnect.wellFormed h) by (now apply ws_run_wellFormed).
  destruct (ws_run_since sigs h0 h0 Hs W0 (ws_since_refl h0))
    as (Hle & Hsch & _).
  fold h in Hle, Hsch.
  destruct W0 as (Hr0 & _). destruct W as (Hr & _ & _ & Hd).
  unfold UseWebSocket.maxReconnectAttempts in *.
  split; [|split; [|split; [|split]]].
  - exists (Z.to_nat (UseWebSocket.reconnectAttempts h
                      - UseWebSocket.reconnectAttempts h0)).
    split; [lia|]. split; [lia|exact Hsch].
  - eapply Forall_impl; [|exact Hd].
    intros d (a & Ha & ->). unfold UseWebSocket.reconnectDelay. lia.
  - intros Ha. simpl. rewrite Ha. reflexivity.
  - intros ->. subst h0. destruct throws; reflexivity.
  - intros throws' sigs'. apply sse_run_scheduled.
    destruct throws'; constructor.
Qed.

(** The amended C9 on a channel that was established, received a
    payload, and then fails three times in a row. *)
Lemma C9_reconnect_delays_linear_and_constant_witness :
  let h0 := UseWebSocket.run
              [UseWebSocket.Open; UseWebSocket.Message None]
              (UseWebSocket.mount false UseWebSocket.initial) in
  let h := UseWebSocket.run (UseWebSocket.failing 3) h0 in
  UseWebSocket.connected h0 = true /\
  UseWebSocket.scheduled h = [2000; 4000; 6000] /\
  Forall (fun d => 2000 <= d <= 10000) (UseWebSocket.scheduled h) /\
  Forall (fun d => d = 3000)
    (UseSSE.scheduled
       (UseSSE.run (UseSSE.dropping 3)
          (UseSSE.mount false UseSSE.initial))).
Proof.
  destruct (C9_reconnect_delays_linear_and_constant
              false [UseWebSocket.Open; UseWebSocket.Message None]
              (UseWebSocket.failing 3) eq_refl)
    as (_ & H2 & _ & _ & H3).
  split; [reflexivity|]. split; [reflexivity|]. split; [exact H2|].
  apply H3.
Defined.

End ReconnectProperties.

(** ** Progress reducer *)

Section ProgressProperties.

Import UseSSE ProcessingPage.

(** C10: when the last message is a [progress] event, each displayed
    field takes the value the event carries if that value is truthy, and
    keeps its previous value if it is [0], the empty string or absent. *)
Theorem C10_progress_updates_only_truthy_fields docId now msgs d p :
  let p' :=
    onMessages docId now (msgs ++ [{| type := "progress"; data := d |}]) p
  in
  currentStep p' =
    match step d with
    | Some n => if n =? 0 then currentStep p else n
    | None => currentStep p
    end /\
  ProcessingPage.progress p' =
    match UseSSE.progress d with
    | Some n => if n =? 0 then ProcessingPage.progress p else n
    | None => ProcessingPage.progress p
    end /\
  statusMessage p' =
    match message d with
    | Some m => if (m =? "")%string then statusMessage p else m
    | None => statusMessage p
    end /\
  statusType p' = loading /\
  isComplete p' = isComplete p /\
  ProcessingPage.result p' = ProcessingPage.result p.
Proof.
  unfold onMessages. rewrite rev_app_distr. simpl.
  unfold reduce. simpl.
  unfold JS.truthyZ, JS.truthy.
  destruct (step d) as [n|]; [destruct (n =? 0)|];
    (destruct (UseSSE.progress d) as [q|]; [destruct (q =? 0)|]);
    (destruct (message d) as [m|]; [destruct (m =? "")%string|]);
    simpl; repeat split.
Qed.

End ProgressProperties.

(** ** Dispatcher *)

Section DispatcherProperties.

Import Dispatcher.







Lemma update_Forall {A : Type} (P : A -> Prop) (f : A -> A) l :
  (forall x, P (f x)) -> Forall P l -> forall i, Forall P (update i f l).
Proof.
  intros Hf H. induction H as [|x l Hx Hl IH]; intros [|i]; simpl;
    constructor; auto.
Qed.






(** The scenario of the specification: of three credentials the first two
    are rate limited and the third succeeds; the call succeeds with the
    third, the first two cool down, and an immediately following call
    selects the third again. *)
Example dispatch_three_credentials :
  let up := fun k => match k with
                     | O | S O => RateLimited None
                     | _ => Success ["ok"]
                     end in
  let r := dispatch 60 0 up 0 (create ["k1"; "k2"; "k3"]) in
  fst (fst r) = inl (2%nat, ["ok"]) /\
  map state (slots (snd (fst r))) =
    [CoolingDown 60; CoolingDown 60; Available] /\
  select 0 (snd (fst r)) = Some 2%nat.
Proof. repeat split. Qed.





End DispatcherProperties.

(** * Further properties of the consumers *)

(** ** Chat component *)

Section ChatFurther.

Import ChatInterface.

(** Decimal rendering tells integers apart. *)
Lemma toString_inj a b : JS.toString a = JS.toString b -> a = b.
Proof.
  unfold JS.toString. intros H.
  assert (P : forall z,
             NilZero.int_of_string (NilZero.string_of_int (Z.to_int z)) =
             Some (Z.to_int z)).
  { intros z. apply NilZero.isi; destruct z; simpl; try discriminate;
      intros [= E]; now apply DecimalPos.Unsigned.to_uint_nonnil in E. }
  pose proof (P a) as Pa. rewrite H, P in Pa. injection Pa as Pa.
  now rewrite <- (DecimalZ.of_to a), <- (DecimalZ.of_to b), Pa.
Qed.

Lemma signalEffect_id es s m : msg_id (signalEffect es s m) = msg_id m.
Proof.
  unfold signalEffect. destruct (closed es); [reflexivity|].
  destruct s; [apply effect_id|reflexivity].
Qed.

Lemma signalEffect_type es s m : msg_type (signalEffect es s m) = msg_type m.
Proof.
  unfold signalEffect. destruct (closed es); [reflexivity|].
  destruct s as [n ev|]; [destruct ev|]; reflexivity.
Qed.

(** A delivered signal rewrites the message list pointwise. *)
Lemma deliver_messages s c es :
  messages (fst (deliver s (c, es))) =
  map (fun m => if (msg_id m =? streamingMessageIdRef c)%string
                then signalEffect es s m else m)
      (messages c).
Proof.
  unfold deliver, signalEffect. destruct (closed es).
  - simpl. symmetry. apply map_cond_same.
  - destruct s as [now ev|].
    + apply onmessage_messages.
    + simpl. symmetry. apply map_cond_same.
Qed.

Lemma deliver_ref s c es :
  streamingMessageIdRef (fst (deliver s (c, es))) = streamingMessageIdRef c.
Proof.
  unfold deliver. destruct (closed es); [reflexivity|].
  destruct s as [now ev|]; [apply onmessage_ref|reflexivity].
Qed.

Lemma deliver_closure s c es :
  closure_currentImages (snd (deliver s (c, es))) = closure_currentImages es.
Proof.
  unfold deliver. destruct (closed es); [reflexivity|].
  destruct s as [now ev|]; [apply onmessage_closure|reflexivity].
Qed.


(** An input made of a no-break space (U+00A0) and a space is blank:
    nothing is sent. *)
Example handleSendMessage_no_break_space t1 t2 :
  let c := setInputMessage
             (String (Ascii.ascii_of_nat 194)
                (String (Ascii.ascii_of_nat 160) " "))
             Scenario.ready in
  handleSendMessage t1 t2 c = (c, None).
Proof. reflexivity. Qed.

(** No signal adds, removes or reorders messages, nor changes the id or
    the author of one: the list of ids and the list of roles stay as
    they are. *)
Theorem signals_preserve_ids_and_roles sigs : forall c es,
  map msg_id (messages (fst (run sigs (c, es)))) = map msg_id (messages c) /\
  map msg_type (messages (fst (run sigs (c, es)))) =
    map msg_type (messages c).
Proof.
  induction sigs as [|s sigs IH]; intros c es; [split; reflexivity|].
  rewrite run_cons.
  pose proof (deliver_messages s c es) as HM.
  destruct (deliver s (c, es)) as [c' es'] eqn:E. simpl in HM.
  destruct (IH c' es') as [I1 I2]. rewrite I1, I2, HM, !map_map.
  split; apply map_ext; intros m;
    destruct (msg_id m =? streamingMessageIdRef c)%string;
    auto using signalEffect_id, signalEffect_type.
Qed.

(** When the clock does not run backwards and no earlier message carries
    the id given to the new answer, the signals of a turn touch the answer
    only: the earlier messages and the question stay as they are. *)
Theorem turn_touches_only_its_answer t1 t2 message c c' es sigs :
  t1 <= t2 ->
  Forall (fun m => msg_id m <> JS.toString (t2 + 1)) (messages c) ->
  startStreaming t1 t2 message c = (c', Some es) ->
  exists answer,
    messages (fst (run sigs (c', es))) =
      (messages c
         ++ [{| msg_id := JS.toString t1; msg_type := user;
                content := message; images := None |}; answer])%list /\
    msg_id answer = JS.toString (t2 + 1) /\
    msg_type answer = assistant.
Proof.
  intros Ht Hold H.
  assert (Hstart :
            messages c' =
              (messages c
                 ++ [{| msg_id := JS.toString t1; msg_type := user;
                        content := message; images := None |};
                     {| msg_id := JS.toString (t2 + 1);
                        msg_type := assistant;
                        content := ""; images := Some [] |}])%list /\
            streamingMessageIdRef c' = JS.toString (t2 + 1)).
  { unfold startStreaming in H.
    destruct (sessionId c); [|discriminate].
    destruct (JS.truthy s); [|discriminate].
    injection H as <- <-. simpl. split; [|reflexivity].
    now rewrite <- app_assoc. }
  destruct Hstart as [Hm Hr].
  assert (Hne : (JS.toString t1 =? JS.toString (t2 + 1))%string = false).
  { apply String.eqb_neq. intros E. apply toString_inj in E. lia. }
  clear H. remember {| msg_id := JS.toString (t2 + 1); msg_type := assistant;
                       content := ""; images := Some [] |} as a0 eqn:Ha0.
  assert (Hid : msg_id a0 = JS.toString (t2 + 1)) by (subst; reflexivity).
  assert (Hty : msg_type a0 = assistant) by (subst; reflexivity).
  clear Ha0. revert c' es a0 Hm Hr Hid Hty.
  induction sigs as [|s sigs IH]; intros c' es a0 Hm Hr Hid Hty.
  - exists a0. auto.
  - rewrite run_cons.
    pose proof (deliver_messages s c' es) as HM.
    pose proof (deliver_ref s c' es) as HR.
    destruct (deliver s (c', es)) as [c2 es2] eqn:E. simpl in HM, HR.
    apply (IH c2 es2 (signalEffect es s a0)).
    + rewrite HM, Hm, map_app. simpl.
      rewrite Hr, Hne, Hid, String.eqb_refl. f_equal.
      rewrite <- (map_id (messages c)) at 2. apply map_ext_in.
      intros m Hin. rewrite Forall_forall in Hold.
      apply Hold in Hin. apply String.eqb_neq in Hin. now rewrite Hin.
    + congruence.
    + now rewrite signalEffect_id.
    + now rewrite signalEffect_type.
Qed.

(** The frame property on the second turn of the scenario: the question
    and the answer of the first turn stay as they are. *)
Lemma turn_touches_only_its_answer_witness :
  exists answer,
    messages (fst (run Scenario.turn2 (Scenario.c2, Scenario.es2))) =
      ([{| msg_id := "1000"; msg_type := user;
           content := "What is X?"; images := None |};
        {| msg_id := "1001"; msg_type := assistant;
           content := ""; images := Some [Scenario.imgA] |}]
         ++ [{| msg_id := "2000"; msg_type := user;
                content := "And Y?"; images := None |}; answer])%list /\
    msg_id answer = "2001" /\
    msg_type answer = assistant.
Proof.
  apply (turn_touches_only_its_answer
           2000 2000 "And Y?"
           (setInputMessage "And Y?" Scenario.afterTurn1)
           Scenario.c2 Scenario.es2 Scenario.turn2).
  - lia.
  - repeat constructor; discriminate.
  - reflexivity.
Defined.

(** Clearing the history while an answer is streamed discards it for
    good: whatever is delivered afterwards, the message list stays
    empty. *)
Theorem cleared_history_stays_empty c es sigs :
  JS.truthyOpt (sessionId c) = true ->
  messages (fst (run sigs (handleClearHistory c, es))) = [].
Proof.
  intros Hs.
  destruct (signals_preserve_ids_and_roles sigs (handleClearHistory c) es)
    as [H _].
  assert (Hc : messages (handleClearHistory c) = []).
  { unfold handleClearHistory, JS.truthyOpt in *.
    destruct (sessionId c); [|discriminate]. now rewrite Hs. }
  rewrite Hc in H.
  destruct (messages (fst (run sigs (handleClearHistory c, es))));
    [reflexivity|discriminate].
Qed.

Lemma cleared_history_stays_empty_witness :
  messages
    (fst (run [Msg 1002 (content_delta "late"); Msg 1003 complete]
            (handleClearHistory Scenario.c1, Scenario.es1))) = [].
Proof.
  apply (cleared_history_stays_empty Scenario.c1 Scenario.es1).
  reflexivity.
Defined.

(** A turn started right after the history has been cleared ends with
    exactly the images of its [image] events, in arrival order, whatever
    the previous turns left in [currentImages]. *)
Theorem turn_after_clear_has_exact_images t1 t2 message c c' es evs :
  JS.truthyOpt (sessionId c) = true ->
  startStreaming t1 t2 message (handleClearHistory c) = (c', Some es) ->
  exists m,
    streamingMessage (fst (handle evs (c', es))) = Some m /\
    JS.orEmpty (images m) = imagesOf evs /\
    content m = textOf evs.
Proof.
  intros Hs H.
  assert (Hc : currentImages (handleClearHistory c) = []).
  { unfold handleClearHistory, JS.truthyOpt in *.
    destruct (sessionId c); [|discriminate]. now rewrite Hs. }
  destruct (startStreaming_last _ _ _ _ _ _ H) as (l & Hl & Hr & Hci).
  eexists. split; [|split].
  - apply (handle_last evs c' es l _ Hl). simpl. now rewrite Hr.
  - rewrite effects_images, Hci, Hc, attached_nil. reflexivity.
  - rewrite effects_content. reflexivity.
Qed.

Lemma turn_after_clear_has_exact_images_witness :
  exists m,
    streamingMessage
      (fst (handle [(2001, image "b.png" "BBBB"); (2002, complete)]
              (fst (startStreaming 2000 2000 "And Y?"
                      (handleClearHistory Scenario.afterTurn1)),
               {| es_session := "session-1"; es_message := "And Y?";
                  closure_currentImages := [];
                  searchStepId := ""; readStepId := ""; writeStepId := "";
                  imagesStepId := ""; closed := false |}))) = Some m /\
    JS.orEmpty (images m) = [Scenario.imgB] /\
    content m = "".
Proof.
  apply (turn_after_clear_has_exact_images
           2000 2000 "And Y?" Scenario.afterTurn1 _
           {| es_session := "session-1"; es_message := "And Y?";
              closure_currentImages := [];
              searchStepId := ""; readStepId := ""; writeStepId := "";
              imagesStepId := ""; closed := false |}
           [(2001, image "b.png" "BBBB"); (2002, complete)]).
  - reflexivity.
  - reflexivity.
Defined.





Lemma updateStep_notPending sid st l c :
  Forall ChatSession.notPending (streamingSteps c) ->
  st <> StreamingSteps.pending ->
  Forall ChatSession.notPending
    (streamingSteps
       (updateStep sid {| StreamingSteps.u_status := Some st;
                          StreamingSteps.u_label := l |} c)).
Proof.
  intros H Hst. simpl. apply Forall_map.
  eapply Forall_impl; [|exact H]. intros x Hx.
  destruct (StreamingSteps.id x =? sid)%string; [exact Hst|exact Hx].
Qed.

Lemma addStep_notPending st c :
  Forall ChatSession.notPending (streamingSteps c) ->
  ChatSession.notPending st ->
  Forall ChatSession.notPending (streamingSteps (addStep st c)).
Proof.
  intros H Hst. simpl. apply Forall_app. split; [exact H|].
  constructor; [exact Hst|constructor].
Qed.

Lemma deliver_notPending s c es :
  Forall ChatSession.notPending (streamingSteps c) ->
  Forall ChatSession.notPending (streamingSteps (fst (deliver s (c, es)))).
Proof.
  intros H. unfold deliver. destruct (closed es); [exact H|].
  destruct s as [now ev|]; [|constructor].
  destruct ev; simpl fst; try exact H.
  - apply addStep_notPending; [exact H|discriminate].
  - apply addStep_notPending; [|discriminate].
    destruct (JS.truthy _); [|exact H].
    apply updateStep_notPending; [exact H|discriminate].
  - unfold onmessage. destruct (count >? 0); simpl fst.
    + apply addStep_notPending; [|discriminate].
      destruct (JS.truthy _); [|exact H].
      apply updateStep_notPending; [exact H|discriminate].
    + destruct (JS.truthy _); [|exact H].
      apply updateStep_notPending; [exact H|discriminate].
  - apply addStep_notPending; [|discriminate].
    destruct (JS.truthy _); [|exact H].
    apply updateStep_notPending; [exact H|discriminate].
  - unfold onmessage, mapStreaming. simpl.
    destruct (JS.truthy _); [|exact H].
    apply updateStep_notPending; [exact H|discriminate].
Qed.

Lemma act_notPending a s :
  Forall ChatSession.notPending (streamingSteps (ChatSession.component s)) ->
  Forall ChatSession.notPending
    (streamingSteps (ChatSession.component (ChatSession.act a s))).
Proof.
  destruct s as [c ref]. simpl. intros H.
  destruct a as [resp|text|t1 t2|sig| | ]; simpl.
  - destruct resp; exact H.
  - exact H.
  - unfold handleSendMessage.
    destruct (JS.blank (inputMessage c) || isStreaming c); [exact H|].
    unfold startStreaming. destruct (sessionId c) as [sid|]; [|exact H].
    destruct (JS.truthy sid); [constructor|exact H].
  - destruct ref as [es|]; [|exact H]. simpl.
    now apply deliver_notPending.
  - unfold handleClearHistory. destruct (sessionId c) as [sid|]; [|exact H].
    destruct (JS.truthy sid); exact H.
  - constructor.
Qed.

(** Whatever the user and the server do after the mount, no step of the
    list is ever [pending]: each is drawn with the spinner ([Loader2]) or
    the check mark, and the icons [getIcon] keeps for pending steps are
    never shown. *)
Theorem steps_show_spinner_or_check actions :
  Forall (fun st =>
            let icon := StreamingStepsView.getIcon
                          (StreamingSteps.type st)
                          (StreamingSteps.status st) in
            icon = StreamingStepsView.Loader2 \/
            icon = StreamingStepsView.Check)
    (streamingSteps
       (ChatSession.component
          (ChatSession.run actions ChatSession.initial))).
Proof.
  assert (H : forall actions s,
             Forall ChatSession.notPending (streamingSteps (ChatSession.component s)) ->
             Forall ChatSession.notPending
               (streamingSteps
                  (ChatSession.component (ChatSession.run actions s)))).
  { clear. induction actions as [|a actions IH]; intros s H; [exact H|].
    change (ChatSession.run (a :: actions) s)
      with (ChatSession.run actions (ChatSession.act a s)).
    apply IH. now apply act_notPending. }
  eapply Forall_impl; [|apply (H actions ChatSession.initial); constructor].
  intros st Hst. unfold ChatSession.notPending in Hst. simpl.
  destruct (StreamingSteps.status st); auto. congruence.
Qed.

Lemma onmessage_steps_length now ev c es :
  List.length (streamingSteps (fst (onmessage now ev c es))) =
  (List.length (streamingSteps c) + ChatSession.stepsAdded [(now, ev)])%nat.
Proof.
  destruct ev; simpl; rewrite ?Nat.add_0_r; try reflexivity.
  - rewrite length_app. reflexivity.
  - rewrite length_app. destruct (JS.truthy _); simpl;
      rewrite ?length_map; reflexivity.
  - destruct (count >? 0); simpl.
    + rewrite length_app. destruct (JS.truthy _); simpl;
        rewrite ?length_map; reflexivity.
    + destruct (JS.truthy _); simpl; rewrite ?length_map; lia.
  - rewrite length_app. destruct (JS.truthy _); simpl;
      rewrite ?length_map; reflexivity.
  - destruct (JS.truthy _); simpl; rewrite ?length_map; reflexivity.
Qed.

Lemma stepsAdded_cons e evs :
  ChatSession.stepsAdded (e :: evs) =
  (ChatSession.stepsAdded [e] + ChatSession.stepsAdded evs)%nat.
Proof.
  destruct e as [n ev]. destruct ev; simpl; try reflexivity.
  destruct (count >? 0); reflexivity.
Qed.

(** The handler never removes a step: after a sequence of events the list
    has grown by one step for each [search_start], [search_complete] and
    [response_start] and for each [images_found] with a positive count,
    and by nothing else. *)
Theorem steps_grow_by_stage_events evs : forall c es,
  List.length (streamingSteps (fst (handle evs (c, es)))) =
  (List.length (streamingSteps c) + ChatSession.stepsAdded evs)%nat.
Proof.
  induction evs as [|[now ev] evs IH]; intros c es.
  - simpl. lia.
  - change (handle ((now, ev) :: evs) (c, es))
      with (handle evs (onmessage now ev c es)).
    pose proof (onmessage_steps_length now ev c es) as H.
    destruct (onmessage now ev c es) as [c' es']. simpl fst in H.
    rewrite IH, H, (stepsAdded_cons (now, ev) evs). lia.
Qed.

Lemma chatpage_onmessage_messages now ev c es :
  messages (fst (ChatPage.onmessage now ev c es)) =
  map (fun m => if (msg_id m =? streamingMessageIdRef c)%string
                then ChatPage.effect (closure_currentImages es) ev m else m)
      (messages c).
Proof.
  destruct ev; try apply onmessage_messages.
  simpl. symmetry. apply map_cond_same.
Qed.

Lemma chatpage_onmessage_ref now ev c es :
  streamingMessageIdRef (fst (ChatPage.onmessage now ev c es)) =
  streamingMessageIdRef c.
Proof. destruct ev; try apply onmessage_ref. reflexivity. Qed.

Lemma chatpage_onmessage_closure now ev c es :
  closure_currentImages (snd (ChatPage.onmessage now ev c es)) =
  closure_currentImages es.
Proof. destruct ev; try apply onmessage_closure. reflexivity. Qed.

Lemma chatpage_onmessage_currentImages now ev c es :
  currentImages (fst (ChatPage.onmessage now ev c es)) =
  (currentImages c ++ imagesOf [(now, ev)])%list.
Proof.
  destruct ev; simpl; rewrite ?app_nil_r; try reflexivity;
    try (destruct (JS.truthy _); reflexivity).
  destruct (JS.truthy _), (count >? 0); reflexivity.
Qed.

Lemma chatpage_handle evs : forall c es l a,
  messages c = (l ++ [a])%list ->
  msg_id a = streamingMessageIdRef c ->
  exists m,
    streamingMessage (fst (ChatPage.handle evs (c, es))) = Some m /\
    JS.orEmpty (images m) =
      (JS.orEmpty (images a)
         ++ ChatPage.attached (closure_currentImages es) evs)%list /\
    content m = (content a ++ textOf evs)%string /\
    currentImages (fst (ChatPage.handle evs (c, es))) =
      (currentImages c ++ imagesOf evs)%list.
Proof.
  assert (nil_r : forall s, (s ++ "")%string = s)
    by (induction s as [|x s IHs]; simpl; congruence).
  assert (assoc : forall s t u,
             ((s ++ t) ++ u)%string = (s ++ t ++ u)%string)
    by (induction s as [|x s IHs]; intros; simpl; congruence).
  induction evs as [|[now ev] evs IH]; intros c es l a Hm Hid.
  - exists a. simpl. rewrite !app_nil_r, nil_r. repeat split.
    unfold streamingMessage. rewrite Hm, map_app. apply last_last.
  - change (ChatPage.handle ((now, ev) :: evs) (c, es))
      with (ChatPage.handle evs (ChatPage.onmessage now ev c es)).
    pose proof (chatpage_onmessage_messages now ev c es) as HM.
    pose proof (chatpage_onmessage_ref now ev c es) as HR.
    pose proof (chatpage_onmessage_closure now ev c es) as HC.
    pose proof (chatpage_onmessage_currentImages now ev c es) as HI.
    destruct (ChatPage.onmessage now ev c es) as [c' es']. simpl in *.
    rewrite Hm, map_app in HM. simpl in HM.
    rewrite Hid, String.eqb_refl in HM.
    destruct (IH c' es' _ _ HM) as (m & H1 & H2 & H3 & H4).
    { rewrite HR. destruct ev; exact Hid. }
    exists m. split; [exact H1|]. rewrite H2, H3, H4, HC, HI.
    destruct ev; simpl; rewrite ?app_nil_r, <- ?app_assoc;
      repeat split; auto.
Qed.

(** On the chat page the images of a turn are collected in
    [currentImages] and never attached to the answer by their own
    events: what [complete] attaches is the list the handlers captured
    when the turn started.  In a turn started with nothing in
    [currentImages] the answer ends without any image. *)
Theorem chatpage_attaches_captured_images t1 t2 message c c' es evs :
  startStreaming t1 t2 message c = (c', Some es) ->
  exists m,
    streamingMessage (fst (ChatPage.handle evs (c', es))) = Some m /\
    JS.orEmpty (images m) = ChatPage.attached (currentImages c) evs /\
    content m = textOf evs /\
    currentImages (fst (ChatPage.handle evs (c', es))) = imagesOf evs /\
    (currentImages c = [] -> JS.orEmpty (images m) = []).
Proof.
  intros H.
  destruct (startStreaming_last _ _ _ _ _ _ H) as (l & Hl & Hr & Hc).
  destruct (chatpage_handle evs c' es l _ Hl) as (m & H1 & H2 & H3 & H4).
  { simpl. now rewrite Hr. }
  assert (Hci : currentImages c' = []).
  { unfold startStreaming in H. destruct (sessionId c); [|discriminate].
    destruct (JS.truthy s); [|discriminate]. now injection H as <- _. }
  exists m. rewrite Hc in H2. rewrite Hci in H4. simpl in *.
  repeat split; auto.
  intros Hnil. rewrite H2, Hnil. clear.
  induction evs as [|[n ev] evs IH]; simpl; [reflexivity|].
  destruct ev; exact IH.
Qed.

Lemma chatpage_attaches_captured_images_witness :
  exists m,
    streamingMessage
      (fst (ChatPage.handle
              [(1001, image "a.png" "AAAA"); (1002, complete)]
              (Scenario.c1, Scenario.es1))) = Some m /\
    JS.orEmpty (images m) = [] /\
    content m = "" /\
    currentImages
      (fst (ChatPage.handle
              [(1001, image "a.png" "AAAA"); (1002, complete)]
              (Scenario.c1, Scenario.es1))) = [Scenario.imgA] /\
    (currentImages Scenario.ready = [] -> JS.orEmpty (images m) = []).
Proof.
  apply (chatpage_attaches_captured_images
           1000 1000 "What is X?" Scenario.ready Scenario.c1 Scenario.es1
           [(1001, image "a.png" "AAAA"); (1002, complete)]).
  reflexivity.
Defined.

End ChatFurther.

(** ** Hooks *)

Section HookFurther.

Lemma ws_run_cons s sigs h :
  UseWebSocket.run (s :: sigs) h =
  UseWebSocket.run sigs (UseWebSocket.deliver s h).
Proof. reflexivity. Qed.

Lemma ws_run_app sigs1 sigs2 h :
  UseWebSocket.run (sigs1 ++ sigs2) h =
  UseWebSocket.run sigs2 (UseWebSocket.run sigs1 h).
Proof. unfold UseWebSocket.run. apply fold_left_app. Qed.

Lemma sse_run_cons s sigs h :
  UseSSE.run (s :: sigs) h = UseSSE.run sigs (UseSSE.deliver s h).
Proof. reflexivity. Qed.

Lemma sse_run_app sigs1 sigs2 h :
  UseSSE.run (sigs1 ++ sigs2) h = UseSSE.run sigs2 (UseSSE.run sigs1 h).
Proof. unfold UseSSE.run. apply fold_left_app. Qed.

(** One round of a connection that opens and is dropped. *)
Lemma ws_flap_round h :
  UseWebSocket.alive h = true ->
  UseWebSocket.timers h = [] ->
  let h' := UseWebSocket.run
              [UseWebSocket.Open; UseWebSocket.Close;
               UseWebSocket.Timer false] h in
  UseWebSocket.alive h' = true /\
  UseWebSocket.timers h' = [] /\
  UseWebSocket.sockets h' = S (UseWebSocket.sockets h) /\
  UseWebSocket.scheduled h' = (UseWebSocket.scheduled h ++ [2000])%list /\
  UseWebSocket.error h' = None /\
  UseWebSocket.reconnectAttempts h' = 1.
Proof.
  intros Ha Ht. unfold UseWebSocket.run. simpl.
  rewrite Ha. simpl. unfold UseWebSocket.onclose. simpl.
  rewrite ?Ha. simpl. rewrite Ht. simpl. repeat split.
Qed.

(** The bound of five attempts concerns consecutive failures only: when
    every socket opens before it is dropped, the counter is reset each
    time and the hook reconnects without end, always after 2000 ms and
    without ever reporting the final failure. *)
Theorem websocket_reconnects_forever_when_sockets_open n :
  let h := UseWebSocket.run (HookRuns.flapping n)
             (UseWebSocket.mount false UseWebSocket.initial) in
  UseWebSocket.sockets h = S n /\
  UseWebSocket.scheduled h = repeat 2000 n /\
  UseWebSocket.alive h = true /\
  UseWebSocket.timers h = [] /\
  UseWebSocket.error h = None.
Proof.
  induction n as [|n IH]; [repeat split|].
  unfold HookRuns.flapping in *.
  replace (repeat [UseWebSocket.Open; UseWebSocket.Close;
                   UseWebSocket.Timer false] (S n))
    with (repeat [UseWebSocket.Open; UseWebSocket.Close;
                  UseWebSocket.Timer false] n
            ++ [[UseWebSocket.Open; UseWebSocket.Close;
                 UseWebSocket.Timer false]])%list
    by (symmetry; apply repeat_cons).
  rewrite concat_app, ws_run_app. simpl List.concat.
  cbv zeta in IH. destruct IH as (I1 & I2 & I3 & I4 & I5).
  destruct (ws_flap_round _ I3 I4) as (R1 & R2 & R3 & R4 & R5 & _).
  cbv zeta. rewrite R3, R4, I1, I2.
  repeat split; auto. symmetry. apply repeat_cons.
Qed.

Lemma ws_deliver_connectedIsAlive s h :
  HookRuns.connectedIsAlive h ->
  HookRuns.connectedIsAlive (UseWebSocket.deliver s h).
Proof.
  unfold HookRuns.connectedIsAlive. intros H.
  destruct s as [ | m | | | throws]; simpl.
  - destruct (UseWebSocket.alive h) eqn:Ha; simpl; rewrite ?Ha;
      intuition congruence.
  - destruct (UseWebSocket.alive h) eqn:Ha;
      [|rewrite Ha; intuition congruence].
    destruct m; simpl; rewrite Ha; intuition congruence.
  - destruct (UseWebSocket.alive h) eqn:Ha; simpl; rewrite ?Ha;
      intuition congruence.
  - destruct (UseWebSocket.alive h) eqn:Ha;
      [|rewrite Ha; intuition congruence].
    unfold UseWebSocket.onclose. simpl.
    destruct (_ <? _); simpl; discriminate.
  - destruct (UseWebSocket.timers h); [exact H|].
    destruct throws; simpl; auto.
Qed.

(** Whatever happens after the mount, the WebSocket hook reports
    [connected] only while its current socket is alive. *)
Theorem websocket_connected_only_while_alive throws sigs :
  let h := UseWebSocket.run sigs
             (UseWebSocket.mount throws UseWebSocket.initial) in
  UseWebSocket.connected h = true -> UseWebSocket.alive h = true.
Proof.
  cbv zeta.
  assert (H : forall sigs h,
             HookRuns.connectedIsAlive h ->
             HookRuns.connectedIsAlive (UseWebSocket.run sigs h)).
  { clear. induction sigs as [|s sigs IH]; intros h H; [exact H|].
    rewrite ws_run_cons. apply IH. now apply ws_deliver_connectedIsAlive. }
  apply H. unfold HookRuns.connectedIsAlive.
  destruct throws; simpl; discriminate.
Qed.

Lemma websocket_connected_only_while_alive_witness :
  UseWebSocket.alive
    (UseWebSocket.run [UseWebSocket.Open]
       (UseWebSocket.mount false UseWebSocket.initial)) = true.
Proof.
  apply (websocket_connected_only_while_alive false [UseWebSocket.Open]).
  reflexivity.
Defined.

Lemma ws_deliver_messages s h :
  UseWebSocket.messages (UseWebSocket.deliver s h) = UseWebSocket.messages h
  \/ exists m, s = UseWebSocket.Message (Some m) /\
                UseWebSocket.messages (UseWebSocket.deliver s h) =
                  (UseWebSocket.messages h ++ [m])%list.
Proof.
  destruct s as [ | m | | | throws]; simpl.
  - destruct (UseWebSocket.alive h); now left.
  - destruct (UseWebSocket.alive h); [|now left].
    destruct m as [m|]; [right; now exists m|now left].
  - destruct (UseWebSocket.alive h); now left.
  - destruct (UseWebSocket.alive h); [|now left].
    unfold UseWebSocket.onclose. simpl. destruct (_ <? _); now left.
  - destruct (UseWebSocket.timers h); [now left|].
    destruct throws; now left.
Qed.

Lemma sse_deliver_messages s h :
  UseSSE.messages (UseSSE.deliver s h) = UseSSE.messages h
  \/ exists p, s = UseSSE.Message (Some p) /\
                UseSSE.messages (UseSSE.deliver s h) =
                  (UseSSE.messages h ++ [HookRuns.normalize p])%list.
Proof.
  destruct s as [ | p | rs | throws]; simpl.
  - destruct (UseSSE.alive h); now left.
  - destruct (UseSSE.alive h); [|now left].
    destruct p as [p|]; [right; now exists p|now left].
  - destruct (UseSSE.alive h); [|now left].
    destruct (UseSSE.eventSourceRef h); [|now left].
    destruct rs; now left.
  - destruct (UseSSE.timers h) as [|t rest]; [now left|].
    unfold UseSSE.timerFires. simpl.
    destruct (UseSSE.eventSourceRef h) as [cur|]; [|now left].
    destruct (cur =? t)%nat; [|now left]. destruct throws; now left.
Qed.

(** Both hooks only ever append to [messages]: reconnections and errors
    lose nothing of what was received, and every message added is the
    (normalised) payload of a message signal of the run. *)
Theorem hooks_keep_received_messages :
  (forall sigs h,
      exists r,
        UseWebSocket.messages (UseWebSocket.run sigs h) =
          (UseWebSocket.messages h ++ r)%list /\
        Forall (fun m => In (UseWebSocket.Message (Some m)) sigs) r) /\
  (forall sigs h,
      exists r,
        UseSSE.messages (UseSSE.run sigs h) =
          (UseSSE.messages h ++ r)%list /\
        Forall (fun m => exists p, In (UseSSE.Message (Some p)) sigs /\
                                   m = HookRuns.normalize p) r).
Proof.
  split.
  - induction sigs as [|s sigs IH]; intros h.
    + exists []. split; [now rewrite app_nil_r|constructor].
    + rewrite ws_run_cons.
      destruct (IH (UseWebSocket.deliver s h)) as (r & Hr & Hall).
      assert (Hall' : Forall (fun m => In (UseWebSocket.Message (Some m))
                                          (s :: sigs)) r)
        by (eapply Forall_impl; [|exact Hall]; intros m Hm; now right).
      destruct (ws_deliver_messages s h) as [E|(m & -> & E)];
        rewrite E in Hr.
      * exists r. now split.
      * exists (m :: r). rewrite <- app_assoc in Hr. split; [exact Hr|].
        constructor; [now left|exact Hall'].
  - induction sigs as [|s sigs IH]; intros h.
    + exists []. split; [now rewrite app_nil_r|constructor].
    + rewrite sse_run_cons.
      destruct (IH (UseSSE.deliver s h)) as (r & Hr & Hall).
      assert (Hall' : Forall (fun m => exists p,
                                  In (UseSSE.Message (Some p)) (s :: sigs) /\
                                  m = HookRuns.normalize p) r).
      { eapply Forall_impl; [|exact Hall].
        intros m (p & Hp & Hm). exists p. split; [now right|exact Hm]. }
      destruct (sse_deliver_messages s h) as [E|(p & -> & E)];
        rewrite E in Hr.
      * exists r. now split.
      * exists (HookRuns.normalize p :: r). rewrite <- app_assoc in Hr.
        split; [exact Hr|]. constructor; [|exact Hall'].
        exists p. split; [now left|reflexivity].
Qed.

Lemma sse_mount_numbered throws :
  HookRuns.numbered (UseSSE.mount throws UseSSE.initial).
Proof.
  unfold HookRuns.numbered. destruct throws; simpl; split; auto.
Qed.

Lemma sse_deliver_numbered s h :
  HookRuns.numbered h -> HookRuns.numbered (UseSSE.deliver s h).
Proof.
  unfold HookRuns.numbered. intros H.
  destruct s as [ | p | rs | throws]; simpl.
  - destruct (UseSSE.alive h); exact H.
  - destruct (UseSSE.alive h); [|exact H]. destruct p; exact H.
  - destruct (UseSSE.alive h); [|exact H].
    destruct (UseSSE.eventSourceRef h) as [cur|] eqn:Hr;
      [|rewrite Hr; exact H].
    destruct H as [H1 H2].
    destruct rs; simpl; rewrite Hr; split; auto;
      apply Forall_app; split; auto.
  - destruct (UseSSE.timers h) as [|t rest] eqn:Et; [rewrite Et; exact H|].
    unfold UseSSE.timerFires. simpl.
    destruct (UseSSE.eventSourceRef h) as [cur|] eqn:Hr.
    + destruct H as [H1 H2]. inversion H2 as [|? ? Ht Hrest]; subst.
      destruct (cur =? t)%nat.
      * destruct throws; simpl; rewrite ?Hr; split; auto.
        eapply Forall_impl; [|exact Hrest]. simpl. intros; lia.
      * simpl. rewrite Hr. split; auto.
    + destruct H; discriminate.
Qed.

Lemma sse_run_numbered sigs : forall h,
  HookRuns.numbered h -> HookRuns.numbered (UseSSE.run sigs h).
Proof.
  induction sigs as [|s sigs IH]; intros h H; [exact H|].
  rewrite sse_run_cons. apply IH. now apply sse_deliver_numbered.
Qed.

(** Timers of replaced sources fire without effect. *)
Lemma sse_stale_timers m : forall h,
  HookRuns.stale h ->
  UseSSE.sources (UseSSE.run (repeat (UseSSE.Timer false) m) h) =
  UseSSE.sources h.
Proof.
  induction m as [|m IH]; intros h H; [reflexivity|].
  simpl repeat. rewrite sse_run_cons. simpl UseSSE.deliver.
  unfold HookRuns.stale in H.
  destruct (UseSSE.timers h) as [|t rest] eqn:Et; [apply IH|].
  - unfold HookRuns.stale. now rewrite Et.
  - unfold UseSSE.timerFires. simpl.
    destruct (UseSSE.eventSourceRef h) as [cur|] eqn:Hr; [|discriminate].
    inversion H as [|? ? Ht Hrest]; subst.
    destruct (Nat.eqb_spec cur t); [lia|].
    rewrite IH; [reflexivity|].
    unfold HookRuns.stale. simpl. now rewrite Hr.
Qed.

Lemma sse_timers_once m : forall h,
  HookRuns.numbered h ->
  (UseSSE.sources (UseSSE.run (repeat (UseSSE.Timer false) m) h)
   <= S (UseSSE.sources h))%nat.
Proof.
  induction m as [|m IH]; intros h H; [simpl; lia|].
  simpl repeat. rewrite sse_run_cons. simpl UseSSE.deliver.
  pose proof H as H0. unfold HookRuns.numbered in H.
  destruct (UseSSE.timers h) as [|t rest] eqn:Et; [now apply IH|].
  unfold UseSSE.timerFires. simpl.
  destruct (UseSSE.eventSourceRef h) as [cur|] eqn:Hr;
    [|destruct H; discriminate].
  destruct H as [H1 H2]. inversion H2 as [|? ? Ht Hrest]; subst.
  destruct (cur =? t)%nat.
  - simpl. rewrite sse_stale_timers; [simpl; lia|].
    unfold HookRuns.stale. simpl.
    eapply Forall_impl; [|exact Hrest]. simpl. intros; lia.
  - etransitivity; [apply IH|simpl; lia].
    unfold HookRuns.numbered. simpl. rewrite Hr. now split.
Qed.

Lemma sse_errors k : forall h cur,
  UseSSE.alive h = true ->
  UseSSE.eventSourceRef h = Some cur ->
  let h' := UseSSE.run (repeat (UseSSE.Error UseSSE.CONNECTING) k) h in
  UseSSE.alive h' = true /\
  UseSSE.eventSourceRef h' = Some cur /\
  UseSSE.sources h' = UseSSE.sources h /\
  UseSSE.timers h' = (UseSSE.timers h ++ repeat cur k)%list /\
  UseSSE.scheduled h' = (UseSSE.scheduled h ++ repeat 3000 k)%list.
Proof.
  induction k as [|k IH]; intros h cur Ha Hr.
  - simpl. now rewrite !app_nil_r.
  - simpl repeat. cbv zeta. rewrite sse_run_cons.
    assert (Hd : UseSSE.deliver (UseSSE.Error UseSSE.CONNECTING) h =
                 UseSSE.onerror cur UseSSE.CONNECTING h)
      by (simpl; now rewrite Ha, Hr).
    rewrite Hd.
    destruct (IH (UseSSE.onerror cur UseSSE.CONNECTING h) cur Ha Hr)
      as (I1 & I2 & I3 & I4 & I5).
    rewrite I1, I2, I3, I4, I5. simpl. rewrite <- !app_assoc.
    repeat split.
Qed.

(** A burst of errors of the same source starts several timers, but the
    source is replaced once only: the timers that fire after the first
    find another source in the ref and do nothing. *)
Theorem sse_burst_reconnects_once throws sigs k m :
  let h := UseSSE.run sigs (UseSSE.mount throws UseSSE.initial) in
  let h' := UseSSE.run (HookRuns.burst k m) h in
  (UseSSE.sources h' <= S (UseSSE.sources h))%nat /\
  (UseSSE.alive h = true -> UseSSE.timers h = [] ->
   (1 <= k)%nat -> (1 <= m)%nat ->
   UseSSE.sources h' = S (UseSSE.sources h) /\
   List.length (UseSSE.scheduled h') =
     (List.length (UseSSE.scheduled h) + k)%nat).
Proof.
  intros h h'. subst h'. unfold HookRuns.burst. rewrite sse_run_app.
  pose proof (sse_run_numbered sigs _ (sse_mount_numbered throws)) as HN.
  pose proof (sse_run_hasSource sigs _ (sse_mount_hasSource throws)) as HS.
  fold h in HN, HS.
  split.
  - etransitivity; [apply sse_timers_once; now apply sse_run_numbered|].
    destruct (UseSSE.alive h) eqn:Ha.
    + destruct (HS Ha) as [cur Hr].
      destruct (sse_errors k h cur Ha Hr) as (_ & _ & -> & _ & _). lia.
    + assert (E : UseSSE.run (repeat (UseSSE.Error UseSSE.CONNECTING) k) h
                  = h).
      { clear -Ha. induction k as [|k IH]; [reflexivity|].
        simpl repeat. rewrite sse_run_cons. simpl. now rewrite Ha. }
      rewrite E. lia.
  - intros Ha Ht Hk Hm.
    destruct (HS Ha) as [cur Hr].
    destruct (sse_errors k h cur Ha Hr) as (E1 & E2 & E3 & E4 & Hsch).
    set (h1 := UseSSE.run (repeat (UseSSE.Error UseSSE.CONNECTING) k) h)
      in *.
    destruct k as [|k]; [lia|]. destruct m as [|m]; [lia|].
    rewrite Ht in E4. simpl in E4.
    simpl repeat. rewrite sse_run_cons. simpl UseSSE.deliver.
    rewrite E4. unfold UseSSE.timerFires. simpl.
    rewrite E2, Nat.eqb_refl. simpl.
    unfold HookRuns.numbered in HN. rewrite Hr in HN. destruct HN as [HN _].
    split.
    + rewrite sse_stale_timers; [simpl; now rewrite E3|].
      unfold HookRuns.stale. simpl. rewrite E3, <- HN.
      apply Forall_forall. intros x Hx. apply repeat_spec in Hx. lia.
    + assert (Hk2 : forall m h2,
                 List.length
                   (UseSSE.scheduled
                      (UseSSE.run (repeat (UseSSE.Timer false) m) h2)) =
                 List.length (UseSSE.scheduled h2)).
      { clear. induction m as [|m IH]; intros h2; [reflexivity|].
        simpl repeat. rewrite sse_run_cons, IH. simpl.
        destruct (UseSSE.timers h2) as [|t rest]; [reflexivity|].
        unfold UseSSE.timerFires. simpl.
        destruct (UseSSE.eventSourceRef h2) as [c|]; [|reflexivity].
        destruct (c =? t)%nat; reflexivity. }
      rewrite Hk2. simpl. rewrite Hsch, length_app, repeat_length.
      reflexivity.
Qed.

Lemma sse_burst_reconnects_once_witness :
  let h := UseSSE.run [UseSSE.Open]
             (UseSSE.mount false UseSSE.initial) in
  let h' := UseSSE.run (HookRuns.burst 3 3) h in
  UseSSE.sources h' = S (UseSSE.sources h) /\
  List.length (UseSSE.scheduled h') =
    (List.length (UseSSE.scheduled h) + 3)%nat.
Proof.
  apply (proj2 (sse_burst_reconnects_once false [UseSSE.Open] 3 3));
    try reflexivity; lia.
Defined.

Lemma sse_quiet_run qs : forall h,
  UseSSE.alive h = true ->
  forallb HookRuns.quiet qs = true ->
  let h' := UseSSE.run qs h in
  UseSSE.alive h' = true /\
  UseSSE.eventSourceRef h' = UseSSE.eventSourceRef h /\
  UseSSE.sources h' = UseSSE.sources h /\
  UseSSE.timers h' = UseSSE.timers h /\
  UseSSE.connected h' =
    (existsb HookRuns.isOpen qs || UseSSE.connected h) /\
  UseSSE.error h' =
    (if existsb HookRuns.isOpen qs then None else UseSSE.error h).
Proof.
  induction qs as [|q qs IH]; intros h Ha Hq.
  - simpl. repeat split. exact Ha.
  - simpl in Hq. apply andb_prop in Hq as [Hq1 Hq2].
    cbv zeta. rewrite sse_run_cons.
    destruct q as [ |p| | ]; try discriminate; simpl UseSSE.deliver;
      rewrite Ha.
    + destruct (IH (UseSSE.onopen h) Ha Hq2)
        as (I1 & I2 & I3 & I4 & I5 & I6).
      rewrite I2, I3, I4, I5, I6. simpl.
      rewrite orb_true_r. destruct (existsb HookRuns.isOpen qs);
        repeat split; exact I1.
    + assert (Ha' : UseSSE.alive (UseSSE.onmessage p h) = true)
        by (destruct p; exact Ha).
      destruct (IH (UseSSE.onmessage p h) Ha' Hq2)
        as (I1 & I2 & I3 & I4 & I5 & I6).
      rewrite I2, I3, I4, I5, I6. simpl existsb. simpl orb.
      destruct p; repeat split; exact I1.
Qed.

(** A reconnection scheduled by an error is never cancelled: when the
    browser has re-established the stream by itself in the meantime (the
    source opened again and delivers messages), the timer still closes
    that source and subscribes anew. *)
Theorem sse_timer_replaces_recovered_source throws sigs qs :
  let h := UseSSE.run sigs (UseSSE.mount throws UseSSE.initial) in
  UseSSE.alive h = true ->
  UseSSE.timers h = [] ->
  forallb HookRuns.quiet qs = true ->
  let h1 := UseSSE.run (UseSSE.Error UseSSE.CONNECTING :: qs) h in
  let h2 := UseSSE.deliver (UseSSE.Timer false) h1 in
  UseSSE.sources h2 = S (UseSSE.sources h) /\
  UseSSE.eventSourceRef h2 = Some (UseSSE.sources h) /\
  (existsb HookRuns.isOpen qs = true ->
   UseSSE.connected h1 = true /\ UseSSE.error h1 = None).
Proof.
  intros h Ha Ht Hq h1 h2.
  pose proof (sse_run_numbered sigs _ (sse_mount_numbered throws)) as HN.
  pose proof (sse_run_hasSource sigs _ (sse_mount_hasSource throws)) as HS.
  fold h in HN, HS. destruct (HS Ha) as [cur Hr].
  unfold HookRuns.numbered in HN. rewrite Hr in HN. destruct HN as [HN _].
  assert (Hd : UseSSE.deliver (UseSSE.Error UseSSE.CONNECTING) h =
               UseSSE.onerror cur UseSSE.CONNECTING h)
    by (simpl; now rewrite Ha, Hr).
  destruct (sse_quiet_run qs (UseSSE.onerror cur UseSSE.CONNECTING h)
              Ha Hq) as (Q1 & Q2 & Q3 & Q4 & Q5 & Q6).
  subst h2 h1. rewrite sse_run_cons, Hd.
  set (g := UseSSE.run qs (UseSSE.onerror cur UseSSE.CONNECTING h)) in *.
  assert (Tg : UseSSE.timers g = [cur])
    by (rewrite Q4; simpl; now rewrite Ht).
  assert (Rg : UseSSE.eventSourceRef g = Some cur)
    by (rewrite Q2; exact Hr).
  assert (Sg : UseSSE.sources g = UseSSE.sources h) by exact Q3.
  unfold UseSSE.deliver. rewrite Tg. unfold UseSSE.timerFires. simpl.
  rewrite Rg, Nat.eqb_refl. simpl. rewrite Sg.
  split; [reflexivity|]. split; [reflexivity|].
  intros Ex. rewrite Q5, Q6, Ex. split; reflexivity.
Qed.

Lemma sse_timer_replaces_recovered_source_witness :
  let h := UseSSE.run [UseSSE.Open]
             (UseSSE.mount false UseSSE.initial) in
  let h1 := UseSSE.run
              [UseSSE.Error UseSSE.CONNECTING; UseSSE.Open;
               UseSSE.Message None] h in
  let h2 := UseSSE.deliver (UseSSE.Timer false) h1 in
  UseSSE.sources h2 = 2%nat /\
  UseSSE.eventSourceRef h2 = Some 1%nat /\
  UseSSE.connected h1 = true /\ UseSSE.error h1 = None.
Proof.
  destruct (sse_timer_replaces_recovered_source
              false [UseSSE.Open] [UseSSE.Open; UseSSE.Message None]
              eq_refl eq_refl eq_refl) as (H1 & H2 & H3).
  split; [exact H1|]. split; [exact H2|]. now apply H3.
Defined.

End HookFurther.

(** ** Processing page and project page *)

Section PageFurther.

Import UseSSE ProcessingPage.

(** A payload that arrives without a [type] (or with an empty one) is
    handled by the page as a progress event, on its [data] member when it
    has one and on the payload itself otherwise. *)
Theorem untyped_payload_is_progress h p docId now pg :
  alive h = true ->
  JS.truthyOpt (p_type p) = false ->
  onMessages docId now (messages (deliver (Message (Some p)) h)) pg =
  reduce docId now
    {| type := "progress";
       data := match p_data p with Some x => x | None => p_self p end |}
    pg.
Proof.
  intros Ha Ht. simpl. rewrite Ha. simpl.
  unfold onMessages. rewrite rev_app_distr. simpl.
  unfold JS.orElse, JS.truthyOpt in *.
  destruct (p_type p) as [t|]; [rewrite Ht|]; reflexivity.
Qed.

Lemma untyped_payload_is_progress_witness :
  let d := {| UseSSE.step := Some 2; UseSSE.progress := Some 30;
              UseSSE.message := Some "Parsing"; UseSSE.result := None |} in
  let pg :=
    onMessages None "t"
      (messages
         (deliver
            (Message (Some {| p_type := None; p_data := None; p_self := d |}))
            (UseSSE.mount false UseSSE.initial)))
      ProcessingPage.initial in
  currentStep pg = 2 /\ ProcessingPage.progress pg = 30 /\
  statusMessage pg = "Parsing".
Proof.
  cbv zeta.
  rewrite (untyped_payload_is_progress
             (UseSSE.mount false UseSSE.initial)
             {| p_type := None; p_data := None;
                p_self := {| UseSSE.step := Some 2; UseSSE.progress := Some 30;
                             UseSSE.message := Some "Parsing"; UseSSE.result := None |} |}
             None "t" ProcessingPage.initial eq_refl eq_refl).
  repeat split.
Defined.

Lemma reduce_isComplete docId now m pg :
  isComplete (reduce docId now m pg) =
  (isComplete pg || (type m =? "complete")%string).
Proof.
  unfold reduce.
  destruct (String.eqb_spec (type m) "connected") as [E|_];
    [rewrite E; simpl; now rewrite orb_false_r|].
  destruct (String.eqb_spec (type m) "progress") as [E|_].
  { rewrite E. simpl. rewrite orb_false_r.
    destruct (UseSSE.step (data m)) as [n|]; [destruct (JS.truthyZ n)|];
      (destruct (UseSSE.progress (data m)) as [q|];
       [destruct (JS.truthyZ q)|]);
      (destruct (UseSSE.message (data m)) as [t|]; [destruct (JS.truthy t)|]);
      reflexivity. }
  destruct (String.eqb_spec (type m) "complete") as [E|_].
  { rewrite orb_true_r.
    destruct docId as [doc|]; [|reflexivity].
    destruct (UseSSE.result (data m)); [|reflexivity].
    destruct (JS.truthy doc); reflexivity. }
  rewrite orb_false_r.
  destruct (type m =? "error")%string; reflexivity.
Qed.

(** The page is complete exactly when it was before or one of the
    messages handled is a [complete] event: no later message, error or
    progress, takes the completion back. *)
Theorem page_complete_iff_a_complete_event docId msgs : forall pg,
  isComplete (ProcessingView.feed docId msgs pg) =
  (isComplete pg ||
   existsb (fun m => (type (snd m) =? "complete")%string) msgs).
Proof.
  induction msgs as [|m msgs IH]; intros pg.
  - simpl. now rewrite orb_false_r.
  - change (ProcessingView.feed docId (m :: msgs) pg)
      with (ProcessingView.feed docId msgs
              (reduce docId (fst m) (snd m) pg)).
    rewrite IH, reduce_isComplete. simpl. now rewrite orb_assoc.
Qed.

(** What a [complete] event with a result saves is what the page loads
    back when it is mounted again for the same document: it shows the
    saved result and processing time, complete at 100%, and from then
    on passes [null] to [useSSE] instead of the document. *)
Theorem saved_completion_is_restored doc now d r pg fresh :
  JS.truthy doc = true ->
  UseSSE.result d = Some r ->
  let pg' := reduce (Some doc) now {| type := "complete"; data := d |} pg in
  let saved := {| documentId := doc; saved_result := r;
                  saved_processingTime := processingTime pg;
                  completedAt := now |} in
  localStorage fresh = localStorage pg' ->
  let m := ProcessingView.loadSaved (Some doc) (ProcessingView.mounted fresh)
  in
  ProcessingView.getItem doc (localStorage pg') = Some saved /\
  ProcessingView.savedData m = Some saved /\
  ProcessingView.hasSavedData m = true /\
  ProcessingView.sseDocument (Some doc) m = None /\
  isComplete (ProcessingView.page m) = true /\
  ProcessingPage.progress (ProcessingView.page m) = 100 /\
  ProcessingPage.result (ProcessingView.page m) = Some r /\
  processingTime (ProcessingView.page m) = processingTime pg /\
  currentStep (ProcessingView.page m) = 4 /\
  statusType (ProcessingView.page m) = success.
Proof.
  intros Hdoc Hr pg' saved Hstore m.
  assert (Hg : ProcessingView.getItem doc (localStorage pg') = Some saved).
  { subst pg' saved. unfold reduce. simpl. rewrite Hr, Hdoc. simpl.
    unfold ProcessingView.getItem. rewrite rev_app_distr. simpl.
    now rewrite String.eqb_refl. }
  split; [exact Hg|].
  assert (Hm : m =
            {| ProcessingView.page :=
                 setCurrentStep 4
                   (setStatusType success
                      (setStatusMessage "Processing complete!"
                         (ProcessingView.setProcessingTime
                            (saved_processingTime saved)
                            (setResult (Some (saved_result saved))
                               (setProgress 100
                                  (setIsComplete true fresh))))));
               ProcessingView.hasSavedData := true;
               ProcessingView.savedData := Some saved |}).
  { subst m. unfold ProcessingView.loadSaved, ProcessingView.mounted.
    rewrite Hdoc.
    change (ProcessingView.page
              {| ProcessingView.page := fresh;
                 ProcessingView.hasSavedData := false;
                 ProcessingView.savedData := None |}) with fresh.
    now rewrite Hstore, Hg. }
  rewrite Hm. repeat split.
Qed.

Lemma saved_completion_is_restored_witness :
  let r := {| document_id := "doc-1"; chunks_processed := 25;
              images_extracted := 7; pickle_path := "p";
              json_path := "j"; vector_store_path := "v" |} in
  let d := {| UseSSE.step := None; UseSSE.progress := None;
              UseSSE.message := None; UseSSE.result := Some r |} in
  let pg' := reduce (Some "doc-1") "2025-01-01"
               {| type := "complete"; data := d |}
               ProcessingPage.initial in
  let m := ProcessingView.loadSaved (Some "doc-1")
             (ProcessingView.mounted pg') in
  ProcessingView.hasSavedData m = true /\
  ProcessingView.sseDocument (Some "doc-1") m = None /\
  ProcessingPage.result (ProcessingView.page m) = Some r /\
  currentStep (ProcessingView.page m) = 4.
Proof.
  cbv zeta.
  destruct (saved_completion_is_restored
              "doc-1" "2025-01-01"
              {| UseSSE.step := None; UseSSE.progress := None;
                 UseSSE.message := None;
                 UseSSE.result :=
                   Some {| document_id := "doc-1";
                           chunks_processed := 25;
                           images_extracted := 7; pickle_path := "p";
                           json_path := "j";
                           vector_store_path := "v" |} |}
              _ ProcessingPage.initial
              (reduce (Some "doc-1") "2025-01-01"
                 {| type := "complete";
                    data :=
                      {| UseSSE.step := None; UseSSE.progress := None;
                         UseSSE.message := None;
                         UseSSE.result :=
                           Some {| document_id := "doc-1";
                                   chunks_processed := 25;
                                   images_extracted := 7;
                                   pickle_path := "p"; json_path := "j";
                                   vector_store_path := "v" |} |} |}
                 ProcessingPage.initial)
              eq_refl eq_refl eq_refl)
    as (_ & _ & H1 & H2 & _ & _ & H3 & _ & H4 & _).
  repeat split; assumption.
Defined.

(** The step indicator shows the steps below the current one completed,
    the current one (when it is one of the four) active, and the later
    ones idle: at most one step is active without being completed. *)
Theorem step_indicator_circles cs :
  ProcessingView.circles cs =
  (repeat ProcessingView.Completed
     (Z.to_nat (Z.min 4 (Z.max 0 (cs - 1))))
     ++ (if (1 <=? cs) && (cs <=? 4) then [ProcessingView.Active] else [])
     ++ repeat ProcessingView.Idle (Z.to_nat (Z.min 4 (Z.max 0 (4 - cs)))))%list.
Proof.
  unfold ProcessingView.circles, ProcessingView.steps, ProcessingView.circle.
  simpl map.
  destruct (Z_le_gt_dec cs 0) as [H0|H0].
  { replace (Z.min 4 (Z.max 0 (cs - 1))) with 0 by lia.
    replace (Z.min 4 (Z.max 0 (4 - cs))) with 4 by lia.
    replace (1 <=? cs) with false by (symmetry; apply Z.leb_gt; lia).
    repeat match goal with
           | |- context [cs >? ?k] =>
               replace (cs >? k) with false
                 by (symmetry; rewrite Z.gtb_ltb; apply Z.ltb_ge; lia)
           | |- context [cs >=? ?k] =>
               replace (cs >=? k) with false
                 by (symmetry; rewrite Z.geb_leb; apply Z.leb_gt; lia)
           end.
    reflexivity. }
  destruct (Z_le_gt_dec 5 cs) as [H5|H5].
  { replace (Z.min 4 (Z.max 0 (cs - 1))) with 4 by lia.
    replace (Z.min 4 (Z.max 0 (4 - cs))) with 0 by lia.
    replace (cs <=? 4) with false by (symmetry; apply Z.leb_gt; lia).
    rewrite andb_false_r.
    repeat match goal with
           | |- context [cs >? ?k] =>
               replace (cs >? k) with true
                 by (symmetry; rewrite Z.gtb_ltb; apply Z.ltb_lt; lia)
           end.
    reflexivity. }
  assert (E : cs = 1 \/ cs = 2 \/ cs = 3 \/ cs = 4) by lia.
  destruct E as [->|[->|[->| ->]]]; reflexivity.
Qed.

End PageFurther.

Section ProjectFurther.

Import ProjectPage.

Lemma refresh_hasUpdates processed docs :
  hasUpdates processed (refresh processed docs) = false.
Proof.
  unfold hasUpdates, refresh. induction docs as [|d docs IH]; simpl;
    [reflexivity|].
  rewrite IH, orb_false_r.
  destruct (status d) as [[| |]|] eqn:E; simpl; rewrite ?E; try reflexivity.
  destruct (processed (documentId d)) eqn:P; simpl; rewrite ?E, ?P;
    reflexivity.
Qed.

Lemma refresh_idempotent processed docs :
  refresh processed (refresh processed docs) = refresh processed docs.
Proof.
  unfold refresh. rewrite map_map. apply map_ext. intros d.
  destruct (status d) as [[| |]|] eqn:E; simpl; rewrite ?E; try reflexivity.
  destruct (processed (documentId d)) eqn:P; simpl; rewrite ?E, ?P;
    reflexivity.
Qed.

(** Polling is stable: once [loadDocuments] has run, running it again
    on what it stored and displayed changes neither, and the pass only
    ever changes the status of documents, never their number, order,
    names or ids. *)
Theorem loadDocuments_is_stable processed docs uploaded :
  let r := loadDocuments processed (Some docs) uploaded in
  loadDocuments processed (fst r) (snd r) = r /\
  map documentId (snd r) = map documentId docs /\
  map name (snd r) = map name docs /\
  loadDocuments processed None uploaded = (None, uploaded).
Proof.
  cbv zeta. unfold loadDocuments.
  split; [|split; [|split]].
  - destruct (hasUpdates processed docs) eqn:U; simpl.
    + now rewrite refresh_hasUpdates, refresh_idempotent.
    + rewrite U.
      assert (E : refresh processed docs = docs).
      { clear -U. unfold refresh, hasUpdates in *.
        induction docs as [|d docs IH]; simpl in *; [reflexivity|].
        apply orb_false_iff in U as [U1 U2]. rewrite (IH U2).
        destruct (status d) as [[| |]|]; try reflexivity.
        now rewrite U1. }
      now rewrite E.
  - simpl. unfold refresh. rewrite map_map. apply map_ext. intros d.
    destruct (status d) as [[| |]|]; try reflexivity.
    destruct (processed (documentId d)); reflexivity.
  - simpl. unfold refresh. rewrite map_map. apply map_ext. intros d.
    destruct (status d) as [[| |]|]; try reflexivity.
    destruct (processed (documentId d)); reflexivity.
  - reflexivity.
Qed.

(** Once the processing page has handled a [complete] event with a
    result for a document, the next poll of the project page shows every
    entry of that document that was [processing] as [complete]; entries
    that are not [processing] keep their status. *)
Theorem completed_document_shows_complete doc now d r pg docs :
  JS.truthy doc = true ->
  UseSSE.result d = Some r ->
  let store :=
    ProcessingPage.localStorage
      (ProcessingPage.reduce (Some doc) now
         {| UseSSE.type := "complete"; UseSSE.data := d |} pg) in
  Forall2 (fun before after =>
             (documentId before = doc -> status before = Some processing ->
              status after = Some complete) /\
             (status before <> Some processing ->
              status after = status before))
    docs (refresh (processedIn store) docs).
Proof.
  intros Hdoc Hr store.
  assert (Hp : processedIn store doc = true).
  { subst store. unfold processedIn, ProcessingPage.reduce. simpl.
    rewrite Hr, Hdoc. simpl. unfold ProcessingView.getItem.
    rewrite rev_app_distr. simpl. now rewrite String.eqb_refl. }
  unfold refresh. induction docs as [|x docs IH]; simpl; [constructor|].
  constructor; [|exact IH]. split.
  - intros E S. rewrite S, E, Hp. reflexivity.
  - intros S. destruct (status x) as [[| |]|] eqn:E; try exact E.
    now contradiction S.
Qed.

Lemma completed_document_shows_complete_witness :
  let r := {| UseSSE.document_id := "doc-1"; UseSSE.chunks_processed := 25;
              UseSSE.images_extracted := 7; UseSSE.pickle_path := "p";
              UseSSE.json_path := "j"; UseSSE.vector_store_path := "v" |} in
  let d := {| UseSSE.step := None; UseSSE.progress := None;
              UseSSE.message := None; UseSSE.result := Some r |} in
  let store :=
    ProcessingPage.localStorage
      (ProcessingPage.reduce (Some "doc-1") "2025-01-01"
         {| UseSSE.type := "complete"; UseSSE.data := d |}
         ProcessingPage.initial) in
  let docs := [{| name := "a.pdf"; size := 10; documentId := "doc-1";
                  uploadedAt := "2025-01-01";
                  status := Some processing; projectId := Some "1" |}] in
  Forall2 (fun before after =>
             (documentId before = "doc-1" ->
              status before = Some processing ->
              status after = Some complete) /\
             (status before <> Some processing ->
              status after = status before))
    docs (refresh (processedIn store) docs).
Proof.
  cbv zeta.
  apply (completed_document_shows_complete
           "doc-1" "2025-01-01"
           {| UseSSE.step := None; UseSSE.progress := None;
              UseSSE.message := None;
              UseSSE.result :=
                Some {| UseSSE.document_id := "doc-1";
                        UseSSE.chunks_processed := 25;
                        UseSSE.images_extracted := 7;
                        UseSSE.pickle_path := "p"; UseSSE.json_path := "j";
                        UseSSE.vector_store_path := "v" |} |}
           _ ProcessingPage.initial
           [{| name := "a.pdf"; size := 10; documentId := "doc-1";
               uploadedAt := "2025-01-01";
               status := Some processing; projectId := Some "1" |}]
           eq_refl eq_refl).
Defined.

(** A [complete] event that carries no result, or that is handled by a
    page without a document id, marks the page complete but writes
    nothing to [localStorage]: the project page finds nothing new, and
    its poll leaves every document as it was before the event. *)
Theorem completion_without_result_stays_processing docId now d pg docs :
  UseSSE.result d = None \/ JS.truthyOpt docId = false ->
  let pg' := ProcessingPage.reduce docId now
               {| UseSSE.type := "complete"; UseSSE.data := d |} pg in
  ProcessingPage.isComplete pg' = true /\
  ProcessingPage.localStorage pg' = ProcessingPage.localStorage pg /\
  refresh (processedIn (ProcessingPage.localStorage pg')) docs =
  refresh (processedIn (ProcessingPage.localStorage pg)) docs.
Proof.
  intros H pg'.
  assert (E : ProcessingPage.localStorage pg' =
              ProcessingPage.localStorage pg).
  { subst pg'. unfold ProcessingPage.reduce. simpl. destruct H as [H|H].
    - rewrite H. destruct docId; reflexivity.
    - destruct docId as [doc|]; [|reflexivity].
      simpl in H. rewrite H. destruct (UseSSE.result d); reflexivity. }
  split; [|split; [exact E|now rewrite E]].
  subst pg'. rewrite reduce_isComplete. simpl. apply orb_true_r.
Qed.

Lemma completion_without_result_stays_processing_witness :
  let pg' := ProcessingPage.reduce (Some "doc-1") "2025-01-01"
               {| UseSSE.type := "complete";
                  UseSSE.data :=
                    {| UseSSE.step := None; UseSSE.progress := None;
                       UseSSE.message := Some "done";
                       UseSSE.result := None |} |}
               ProcessingPage.initial in
  let docs := [{| name := "a.pdf"; size := 10; documentId := "doc-1";
                  uploadedAt := "2025-01-01";
                  status := Some processing; projectId := Some "1" |}] in
  ProcessingPage.isComplete pg' = true /\
  ProcessingPage.localStorage pg' = [] /\
  refresh (processedIn (ProcessingPage.localStorage pg')) docs =
  refresh (processedIn []) docs.
Proof.
  cbv zeta.
  apply (completion_without_result_stays_processing
           (Some "doc-1") "2025-01-01"
           {| UseSSE.step := None; UseSSE.progress := None;
              UseSSE.message := Some "done"; UseSSE.result := None |}
           ProcessingPage.initial
           [{| name := "a.pdf"; size := 10; documentId := "doc-1";
               uploadedAt := "2025-01-01";
               status := Some processing; projectId := Some "1" |}]).
  left. reflexivity.
Defined.

End ProjectFurther.
